(** * WhisperLive: the Railway wrapper and the file-upload transcription API

  A shallow embedding of [railway_wrapper.py] (health endpoint, lazy
  start of the WhisperLive backend, duplex WebSocket relay) and of
  [whisper_api_server.py] (the [/transcribe] endpoint).

  The wrapper runs on one asyncio event loop: a coroutine runs without
  interruption from one [await] to the next.  Each coroutine is therefore
  written as a function that runs one such segment on the shared state
  and says where it suspended; the environment (the scheduler, the peers,
  the operating system) is a list of events. *)

From Stdlib Require Import ZArith String Ascii List Bool Lia Floats DecimalString.
From stdpp Require Import base list strings.

(** ** Python values, exceptions, logging *)

Module Py.

(** An exception, as far as the code looks at it: its [str()]. *)
Definition Exception := string.

(** The values that travel through the relay as message payloads. *)
Inductive Val :=
| VStr (s : string)
| VBytes (b : list Byte.byte)
| VInt (z : Z)
| VExc (e : Exception)
| VNone.

Definition isinstance_str (v : Val) : bool :=
  match v with VStr _ => true | _ => false end.

Definition isinstance_bytes (v : Val) : bool :=
  match v with VBytes _ => true | _ => false end.

Inductive Level := L_INFO | L_WARNING | L_ERROR.

Definition LogRecord : Type := Level * string.

(** A [str] is held as its UTF-8 bytes.

    [str.lower()], as far as its result can be compared with ASCII text:
    the ASCII capitals go to their small letters, and KELVIN SIGN (U+212A,
    the bytes 226 132 170), the one code point outside ASCII whose lower
    case is ASCII, goes to [k].  Any other code point outside ASCII is left
    as it is: its lower case has a code point outside ASCII as well, so
    that a test of the result against ASCII text, which is all the code
    does with it, comes out as in Python. *)
Definition lower_ascii (c : ascii) : ascii :=
  let n := nat_of_ascii c in
  if (65 <=? n)%nat && (n <=? 90)%nat then ascii_of_nat (n + 32) else c.

Fixpoint lower (s : string) : string :=
  match s with
  | EmptyString => EmptyString
  | String c r =>
      match r with
      | String d (String e r') =>
          if Ascii.eqb c "226" && Ascii.eqb d "132" && Ascii.eqb e "170"
          then String "k" (lower r')
          else String (lower_ascii c) (lower r)
      | _ => String (lower_ascii c) (lower r)
      end
  end.

(** [len(s)]: the number of code points, each of which starts with a byte
    that is not of the form [10xxxxxx]. *)
Definition is_continuation (c : ascii) : bool :=
  let n := nat_of_ascii c in (128 <=? n)%nat && (n <=? 191)%nat.

Fixpoint len (s : string) : nat :=
  match s with
  | EmptyString => 0
  | String c r => if is_continuation c then len r else S (len r)
  end.

(** [str(n)] for an integer. *)
Definition str_of_int (z : Z) : string :=
  match z with
  | Z0 => "0"
  | Zpos p => NilEmpty.string_of_uint (Pos.to_uint p)
  | Zneg p => "-" +:+ NilEmpty.string_of_uint (Pos.to_uint p)
  end.

(** What a coroutine segment ends with. *)
Inductive Outcome :=
| Returned
| Raised (e : Exception)
| Sleeping (seconds : Z).

(** [str(x)] where [x] is an exception or [None]. *)
Definition str_of_exc (x : option Exception) : string :=
  match x with Some e => e | None => "None" end.

End Py.

(** ** HTTP requests, JSON bodies and responses *)

Module Http.

#[warnings="-register-all"]
Inductive Json :=
| JStr (s : string)
| JNum (x : float)
| JArr (items : list Json)
| JObj (fields : list (string * Json)).

Record Request := mkRequest {
  method : string;
  path : string;
  headers : list (string * string)
}.

Record Response := mkResponse {
  status : Z;
  content_type : string;
  body : Json
}.

(** [web.json_response(data)] and [jsonify(data)]: status 200 unless the
    handler says otherwise. *)
Definition json_response (data : Json) : Response :=
  mkResponse 200 "application/json" data.

(** [request.headers.get(key, default)]: header names compare without
    regard to case, the first match wins. *)
Fixpoint headers_get (hs : list (string * string)) (key default : string) : string :=
  match hs with
  | [] => default
  | (k, v) :: r =>
      if String.eqb (Py.lower k) (Py.lower key) then v else headers_get r key default
  end.

(** The names of the fields of a JSON object, in order. *)
Definition keys (j : Json) : list string :=
  match j with
  | JObj fs => map fst fs
  | _ => []
  end.

End Http.

(** ** railway_wrapper.py *)

Module Wrapper.
Import Py Http.

(** *** The wrapper object and the world it runs in *)

(** A child process: the argument vector it was started with and its
    return code, [None] while it runs. *)
Record Popen := mkPopen { args : list string; returncode : option Z }.

(** [World] is the state the sessions share: the wrapper's attributes
    ([port], [whisper_server], a handle into the process table) and the
    environment the code reads: [sys.executable], the exception
    [subprocess.Popen] meets if the operating system does not start the
    process, the [ImportError] of [import websockets] if the package is
    missing, and [time.time()]. *)
Record World := mkWorld {
  port : Z;
  whisper_server : option nat;
  procs : list Popen;
  sys_executable : string;
  fork_error : option Exception;
  import_websockets : option Exception;
  time_time : float;
  log : list LogRecord
}.

Definition logger (lv : Level) (m : string) (w : World) : World :=
  mkWorld (port w) (whisper_server w) (procs w) (sys_executable w)
          (fork_error w) (import_websockets w) (time_time w) (log w ++ [(lv, m)]).

Definition set_whisper_server (h : nat) (w : World) : World :=
  mkWorld (port w) (Some h) (procs w) (sys_executable w)
          (fork_error w) (import_websockets w) (time_time w) (log w).

Definition set_procs (ps : list Popen) (w : World) : World :=
  mkWorld (port w) (whisper_server w) ps (sys_executable w)
          (fork_error w) (import_websockets w) (time_time w) (log w).

(** [__init__]: nothing tracked yet. *)
Definition init (p : Z) (exe : string) (imp : option Exception) (t : float) : World :=
  mkWorld p None [] exe None imp t [].

(** [Popen.poll()]: the return code, [None] while the process runs. *)
Definition poll (w : World) (h : nat) : option Z :=
  match procs w !! h with
  | Some p => returncode p
  | None => None
  end.

(** [subprocess.Popen(argv, ...)]: a new entry of the process table, or
    the exception the operating system answers with. *)
Definition subprocess_Popen (argv : list string) (w : World)
  : World * nat + Exception :=
  match fork_error w with
  | Some e => inr e
  | None => inl (set_procs (procs w ++ [mkPopen argv None]) w, length (procs w))
  end.

Definition backend_argv (w : World) : list string :=
  [sys_executable w; "run_server.py"; "--port"; "9091"; "--backend"; "faster_whisper"].

(** The test of line 82. *)
Definition not_running (w : World) : bool :=
  match whisper_server w with
  | None => true
  | Some h => match poll w h with Some _ => true | None => false end
  end.

(** [ensure_whisper_server], up to its only [await]. *)
Definition ensure_whisper_server (w : World) : World * Outcome :=
  if not_running w then
    let w1 := logger L_INFO "Starting WhisperLive backend server..." w in
    match subprocess_Popen (backend_argv w1) w1 with
    | inr e => (w1, Raised e)
    | inl (w2, h) => (set_whisper_server h w2, Sleeping 3)
    end
  else (w, Returned).

(** [ensure_whisper_server], from the end of the sleep to its return. *)
Definition ensure_whisper_server_resume (w : World) : World :=
  logger L_INFO "WhisperLive backend server started" w.

(** *** Routes and the two handlers *)

Inductive Handler := route_health_check | route_websocket_handler.

(** A resource of aiohttp's router: a path and the routes added to it,
    method and handler, in the order they were added. *)
Record Resource := mkResource {
  raw_path : string;
  routes : list (string * Handler)
}.

(** [app.router]: the resources in the order they were added. *)
Definition Router : Type := list Resource.

Definition route_for (method : string) (rt : string * Handler) : bool :=
  String.eqb (fst rt) method || String.eqb (fst rt) "*".

(** [Resource.add_route(method, handler)]: refused with a [RuntimeError]
    when the resource has a route for the method, or for any method,
    already. *)
Definition resource_add_route (method : string) (h : Handler) (r : Resource)
  : Resource + Exception :=
  match find (route_for method) (routes r) with
  | Some rt =>
      inr ("Added route will never be executed, method " +:+ fst rt +:+
           " is already registered")
  | None => inl (mkResource (raw_path r) (routes r ++ [(method, h)]))
  end.

(** [router.add_route(method, path, handler)]: the route is added to the
    resource added last if that one has the same path, to a new resource
    otherwise. *)
Fixpoint add_route (method path : string) (h : Handler) (app : Router)
  : Router + Exception :=
  match app with
  | [] => inl [mkResource path [(method, h)]]
  | r :: rest =>
      match rest with
      | [] =>
          if String.eqb (raw_path r) path then
            match resource_add_route method h r with
            | inl r' => inl [r']
            | inr e => inr e
            end
          else inl [r; mkResource path [(method, h)]]
      | _ :: _ =>
          match add_route method path h rest with
          | inl rest' => inl (r :: rest')
          | inr e => inr e
          end
      end
  end.

(** [router.add_head(path, handler)]. *)
Definition add_head (path : string) (h : Handler) (app : Router) : Router + Exception :=
  add_route "HEAD" path h app.

(** [router.add_get(path, handler)], with its default [allow_head=True]:
    the handler is registered for HEAD and for GET. *)
Definition add_get (path : string) (h : Handler) (app : Router) : Router + Exception :=
  match add_route "HEAD" path h app with
  | inl app1 => add_route "GET" path h app1
  | inr e => inr e
  end.

(** [setup_routes]: the three calls of lines 33 to 35 on the router. *)
Definition setup_routes (app : Router) : Router + Exception :=
  match add_get "/health" route_health_check app with
  | inr e => inr e
  | inl app1 =>
      match add_head "/health" route_health_check app1 with
      | inr e => inr e
      | inl app2 => add_get "/" route_websocket_handler app2
      end
  end.

(** The router's lookup: the first resource with the path of the request
    that has a route for its method. *)
Fixpoint resolve_in (app : Router) (req : Request) : option Handler :=
  match app with
  | [] => None
  | r :: rest =>
      if String.eqb (raw_path r) (path req) then
        match find (route_for (method req)) (routes r) with
        | Some rt => Some (snd rt)
        | None => resolve_in rest req
        end
      else resolve_in rest req
  end.

(** The router that lines 33 and 35 build, the call of line 34 left out:
    GET and HEAD on [/health] and on [/].  [serve] below dispatches on
    it, which is how the handlers would be reached. *)
Definition registered : Router :=
  match add_get "/health" route_health_check [] with
  | inl app1 =>
      match add_get "/" route_websocket_handler app1 with
      | inl app2 => app2
      | inr _ => app1
      end
  | inr _ => []
  end.

Definition resolve (req : Request) : option Handler := resolve_in registered req.

(** [health_check]. *)
Definition health_check (req : Request) (w : World) : World * Response :=
  let w1 := logger L_INFO ("Health check: " +:+ method req +:+ " " +:+ path req) w in
  (w1, json_response (JObj
         [ ("status", JStr "healthy");
           ("service", JStr "WhisperLive");
           ("backend", JStr "faster_whisper");
           ("timestamp", JNum (time_time w1)) ])).

(** The test of line 50. *)
Definition is_upgrade (req : Request) : bool :=
  String.eqb (lower (headers_get (headers req) "upgrade" "")) "websocket".

(** The body returned at line 52. *)
Definition service_info (w : World) : Response :=
  json_response (JObj
    [ ("service", JStr "WhisperLive WebSocket Server");
      ("status", JStr "running");
      ("backend", JStr "faster_whisper");
      ("websocket_url", JStr ("ws://localhost:" +:+ str_of_int (port w) +:+ "/")) ]).

(** *** Connections and messages *)

(** A frame on the wire: the kind tag and the payload. *)
Inductive Frame :=
| TextFrame (s : string)
| BinaryFrame (b : list Byte.byte).

(** One end of a WebSocket connection as the wrapper holds it: whether the
    peer has closed, whether the wrapper called [close()], the frames the
    wrapper sent on it (oldest first), and what [exception()] returns. *)
Record Conn := mkConn {
  hung_up : bool;
  close_called : bool;
  sent : list Frame;
  exception : option Exception
}.

Definition fresh_conn : Conn := mkConn false false [] None.

Definition is_closed (c : Conn) : bool := hung_up c || close_called c.

Definition close (c : Conn) : Conn :=
  mkConn (hung_up c) true (sent c) (exception c).

Definition peer_closed (c : Conn) : Conn :=
  mkConn true (close_called c) (sent c) (exception c).

Definition push (f : Frame) (c : Conn) : Conn :=
  mkConn (hung_up c) (close_called c) (sent c ++ [f]) (exception c).

Definition set_exception (e : Exception) (c : Conn) : Conn :=
  mkConn (hung_up c) (close_called c) (sent c) (Some e).

(** aiohttp's message types and messages. *)
Inductive WSMsgType :=
| CONTINUATION | TEXT | BINARY | PING | PONG | CLOSE | CLOSING | CLOSED | ERROR.

Record WSMessage := mkMsg { type : WSMsgType; data : Val }.

(** [server_ws.send(data)] of the websockets library: [err] is what the
    connection answers with ([None]: the frame goes out); a [str] goes out
    as a text frame, [bytes] as a binary frame, anything else is a
    [TypeError]. *)
Definition send (v : Val) (err : option Exception) (c : Conn) : Conn + Exception :=
  match err with
  | Some e => inr e
  | None =>
      match v with
      | VStr s => inl (push (TextFrame s) c)
      | VBytes b => inl (push (BinaryFrame b) c)
      | _ => inr "data must be str, bytes, iterable, or async iterable"
      end
  end.

(** [client_ws.send_str(data)] of aiohttp. *)
Definition send_str (v : Val) (err : option Exception) (c : Conn) : Conn + Exception :=
  match err with
  | Some e => inr e
  | None =>
      match v with
      | VStr s => inl (push (TextFrame s) c)
      | _ => inr "data argument must be str"
      end
  end.

(** [client_ws.send_bytes(data)] of aiohttp. *)
Definition send_bytes (v : Val) (err : option Exception) (c : Conn) : Conn + Exception :=
  match err with
  | Some e => inr e
  | None =>
      match v with
      | VBytes b => inl (push (BinaryFrame b) c)
      | _ => inr "data argument must be byte-ish"
      end
  end.

(** What an [async for] over a connection does next: it hands the body a
    message ([send_err] is the answer the connection on the other side
    gives if the body sends), it ends because the connection was closed,
    or it raises. *)
Inductive Leg (M : Type) :=
| Yield (m : M) (send_err : option Exception)
| Stop
| Throw (e : Exception).
Arguments Yield {M} m send_err.
Arguments Stop {M}.
Arguments Throw {M} e.

(** How a forwarding loop ended. *)
Inductive Exit :=
| Exhausted
| Broke
| Failed (e : Exception).

Inductive Loop :=
| Idle
| Running
| Exited (x : Exit).

(** *** One invocation of [websocket_handler] on an upgrade request *)

Inductive Result :=
| ReturnedWs
| Escaped (e : Exception).

(** The [await] at which the handler is suspended. *)
Inductive Phase :=
| Preparing
| InSleep
| Connecting
| Relaying
| Finished (r : Result).

Record Session := mkSession {
  phase : Phase;
  ws : Conn;
  server_ws : option Conn;
  c2s : Loop;
  s2c : Loop
}.

Definition new_session : Session := mkSession Preparing fresh_conn None Idle Idle.

Definition set_phase (p : Phase) (s : Session) : Session :=
  mkSession p (ws s) (server_ws s) (c2s s) (s2c s).

Definition set_ws (c : Conn) (s : Session) : Session :=
  mkSession (phase s) c (server_ws s) (c2s s) (s2c s).

Definition set_server_ws (c : option Conn) (s : Session) : Session :=
  mkSession (phase s) (ws s) c (c2s s) (s2c s).

(** What aiohttp does with the response a handler returns: it finishes it,
    and to finish a [WebSocketResponse] ([write_eof]) is to close the
    connection, unless it is closed already.  This is the external
    connection as the framework leaves it: closed by [write_eof] once the
    handler has returned [ws], as the handler has it before. *)
Definition finish_response (s : Session) : Conn :=
  match phase s with
  | Finished ReturnedWs => close (ws s)
  | _ => ws s
  end.


(** *** proxy_websocket: the two forwarding loops *)

(** One turn of the [async for] of [client_to_server] over [client_ws],
    with the connections the closure captured.  The result is the world,
    [server_ws], and whether the loop goes on. *)
Definition client_to_server (ev : Leg WSMessage) (w : World) (client_ws server_ws : Conn)
  : World * Conn * Loop :=
  match ev with
  | Stop => (w, server_ws, Exited Exhausted)
  | Throw e =>
      (logger L_ERROR ("Client to server error: " +:+ e) w, server_ws, Exited (Failed e))
  | Yield msg err =>
      match type msg with
      | TEXT =>
          match send (data msg) err server_ws with
          | inl c => (w, c, Running)
          | inr e =>
              (logger L_ERROR ("Client to server error: " +:+ e) w, server_ws, Exited (Failed e))
          end
      | BINARY =>
          match send (data msg) err server_ws with
          | inl c => (w, c, Running)
          | inr e =>
              (logger L_ERROR ("Client to server error: " +:+ e) w, server_ws, Exited (Failed e))
          end
      | ERROR =>
          (logger L_ERROR ("WebSocket error: " +:+ str_of_exc (exception client_ws)) w,
           server_ws, Exited Broke)
      | _ => (w, server_ws, Running)
      end
  end.

(** One turn of the [async for] of [server_to_client] over [server_ws].
    The result is the world, [client_ws], and whether the loop goes on. *)
Definition server_to_client (ev : Leg Val) (w : World) (client_ws : Conn)
  : World * Conn * Loop :=
  match ev with
  | Stop => (w, client_ws, Exited Exhausted)
  | Throw e =>
      (logger L_ERROR ("Server to client error: " +:+ e) w, client_ws, Exited (Failed e))
  | Yield msg err =>
      if isinstance_str msg then
        match send_str msg err client_ws with
        | inl c => (w, c, Running)
        | inr e =>
            (logger L_ERROR ("Server to client error: " +:+ e) w, client_ws, Exited (Failed e))
        end
      else if isinstance_bytes msg then
        match send_bytes msg err client_ws with
        | inl c => (w, c, Running)
        | inr e =>
            (logger L_ERROR ("Server to client error: " +:+ e) w, client_ws, Exited (Failed e))
        end
      else (w, client_ws, Running)
  end.

(** What receiving does to the connection read from, before the body
    runs: the end of the iteration means the peer closed; an [ERROR]
    message comes with the exception that [exception()] then returns. *)
Definition receive_client (ev : Leg WSMessage) (c : Conn) : Conn :=
  match ev with
  | Stop => peer_closed c
  | Yield (mkMsg ERROR (VExc e)) _ => set_exception e c
  | _ => c
  end.

Definition receive_server (ev : Leg Val) (c : Conn) : Conn :=
  match ev with
  | Stop => peer_closed c
  | _ => c
  end.

Definition exited (l : Loop) : bool :=
  match l with Exited _ => true | _ => false end.

(** *** websocket_handler, from the upgrade on *)

(** The [finally] clause and the [return ws] after it. *)
Definition handler_finally (w : World) (s : Session) : World * Session :=
  (logger L_INFO "WebSocket connection closed" w, set_phase (Finished ReturnedWs) s).

(** The [except Exception] clause of the handler. *)
Definition handler_except (e : Exception) (w : World) (s : Session) : World * Session :=
  handler_finally (logger L_ERROR ("WebSocket error: " +:+ e) w) (set_ws (close (ws s)) s).

(** [asyncio.gather(..., return_exceptions=True)] returns when both loops
    are over; the [async with] block is then left, which closes
    [server_ws]; [proxy_websocket] returns and the handler finishes. *)
Definition gather (w : World) (s : Session) : World * Session :=
  if exited (c2s s) && exited (s2c s) then
    handler_finally w (set_server_ws (option_map close (server_ws s)) s)
  else (w, s).

(** [proxy_websocket] up to its first [await]: the import of line 96
    stands before the [try], so its exception reaches the handler; then
    the connect of line 100 is awaited. *)
Definition proxy_websocket (w : World) (s : Session) : World * Session :=
  match import_websockets w with
  | Some e => handler_except e w s
  | None => (w, set_phase Connecting s)
  end.

(** What resumes a suspended handler. *)
Inductive SessionEvent :=
| Prepared (err : option Exception)
| Woke
| Connected (err : option Exception)
| FromClient (ev : Leg WSMessage)
| FromServer (ev : Leg Val).

(** The handler from one suspension to the next. *)
Definition session_step (ev : SessionEvent) (w : World) (s : Session) : World * Session :=
  match phase s, ev with
  | Preparing, Prepared (Some e) => (w, set_phase (Finished (Escaped e)) s)
  | Preparing, Prepared None =>
      let w1 := logger L_INFO "New WebSocket connection established" w in
      match ensure_whisper_server w1 with
      | (w2, Raised e) => handler_except e w2 s
      | (w2, Sleeping _) => (w2, set_phase InSleep s)
      | (w2, Returned) => proxy_websocket w2 s
      end
  | InSleep, Woke => proxy_websocket (ensure_whisper_server_resume w) s
  | Connecting, Connected (Some e) =>
      handler_finally (logger L_ERROR ("Proxy error: " +:+ e) w) s
  | Connecting, Connected None =>
      (w, mkSession Relaying (ws s) (Some fresh_conn) Running Running)
  | Relaying, FromClient lev =>
      match c2s s, server_ws s with
      | Running, Some srv =>
          let cli := receive_client lev (ws s) in
          let '(w1, srv1, l) := client_to_server lev w cli srv in
          gather w1 (mkSession Relaying cli (Some srv1) l (s2c s))
      | _, _ => (w, s)
      end
  | Relaying, FromServer lev =>
      match s2c s, server_ws s with
      | Running, Some srv =>
          let srv1 := receive_server lev srv in
          let '(w1, cli, l) := server_to_client lev w (ws s) in
          gather w1 (mkSession Relaying cli (Some srv1) (c2s s) l)
      | _, _ => (w, s)
      end
  | _, _ => (w, s)
  end.

(** *** The service: the shared world and the sessions in flight *)

Record System := mkSystem {
  world : World;
  sessions : list Session;
  responses : list Response
}.

(** The service as it is served: no backend, no session, no response
    yet. *)
Definition boot (p : Z) (exe : string) (imp : option Exception) (t : float) : System :=
  mkSystem (init p exe imp t) [] [].

(** [RailwayWhisperLiveWrapper(port)]: [__init__] sets the port, makes the
    application, whose router is empty, sets [whisper_server] to [None]
    and calls [setup_routes]; an exception of that call leaves [__init__],
    and then there is no wrapper for [run]. *)
Definition RailwayWhisperLiveWrapper (p : Z) (exe : string) (imp : option Exception) (t : float)
  : System * Router + Exception :=
  match setup_routes [] with
  | inl app => inl (boot p exe imp t, app)
  | inr e => inr e
  end.

Inductive Event :=
| Arrive (req : Request)
| Resume (i : nat) (ev : SessionEvent)
| ProcessExit (h : nat) (rc : Z)
| ForkAnswer (err : option Exception)
| Clock (t : float).

(** [websocket_handler] up to its first [await]: the plain GET is answered
    at once, an upgrade request becomes a session waiting in
    [ws.prepare]. *)
Definition websocket_handler (req : Request) (sys : System) : System :=
  if is_upgrade req then
    mkSystem (world sys) (sessions sys ++ [new_session]) (responses sys)
  else
    mkSystem (world sys) (sessions sys) (responses sys ++ [service_info (world sys)]).

Definition serve (req : Request) (sys : System) : System :=
  match resolve req with
  | Some route_health_check =>
      let '(w, r) := health_check req (world sys) in
      mkSystem w (sessions sys) (responses sys ++ [r])
  | Some route_websocket_handler => websocket_handler req sys
  | None => sys
  end.

(** A running child process terminates with return code [rc]. *)
Definition exit_process (h : nat) (rc : Z) (ps : list Popen) : list Popen :=
  match ps !! h with
  | Some p =>
      match returncode p with
      | None => <[h := mkPopen (args p) (Some rc)]> ps
      | Some _ => ps
      end
  | None => ps
  end.

Definition step (ev : Event) (sys : System) : System :=
  match ev with
  | Arrive req => serve req sys
  | Resume i sev =>
      match sessions sys !! i with
      | Some s =>
          let '(w, s1) := session_step sev (world sys) s in
          mkSystem w (<[i := s1]> (sessions sys)) (responses sys)
      | None => sys
      end
  | ProcessExit h rc =>
      mkSystem (set_procs (exit_process h rc (procs (world sys))) (world sys))
               (sessions sys) (responses sys)
  | ForkAnswer err =>
      let w := world sys in
      mkSystem (mkWorld (port w) (whisper_server w) (procs w) (sys_executable w)
                        err (import_websockets w) (time_time w) (log w))
               (sessions sys) (responses sys)
  | Clock t =>
      let w := world sys in
      mkSystem (mkWorld (port w) (whisper_server w) (procs w) (sys_executable w)
                        (fork_error w) (import_websockets w) t (log w))
               (sessions sys) (responses sys)
  end.

Definition run (evs : list Event) (sys : System) : System :=
  fold_left (fun s e => step e s) evs sys.

(** The child processes that are running. *)
Definition running (p : Popen) : bool :=
  match returncode p with None => true | Some _ => false end.

Definition live (w : World) : list Popen := List.filter running (procs w).

(** The handler of this session has been through
    [ensure_whisper_server]. *)
Definition past_ensure (s : Session) : bool :=
  match phase s with
  | Preparing | Finished (Escaped _) => false
  | _ => true
  end.

(** Events under which a started backend stays up and [Popen] works. *)
Definition calm (e : Event) : bool :=
  match e with
  | ProcessExit _ _ | ForkAnswer (Some _) => false
  | _ => true
  end.

(** What [ensure_whisper_server] reads and writes: the tracked handle,
    the process table and the answer [Popen] will get. *)
Definition backend_of (w : World) : option nat * list Popen * option Exception :=
  (whisper_server w, procs w, fork_error w).

(** The tracked process is the youngest of the table, and every older one
    has exited. *)
Definition tracked_last (w : World) : Prop :=
  match whisper_server w with
  | None => procs w = []
  | Some h =>
      exists old p,
        procs w = old ++ [p] /\ h = length old /\ Forall (fun q => running q = false) old
  end.

Definition stopped (w : World) : list Popen :=
  List.filter (fun p => negb (running p)) (procs w).

(** Nothing has gone wrong so far: [Popen] works, every process started
    is still running, and a backend is tracked as soon as one handler has
    been through [ensure_whisper_server]. *)
Definition steady (sys : System) : Prop :=
  fork_error (world sys) = None /\
  Forall (fun p => running p = true) (procs (world sys)) /\
  Forall (fun s => past_ensure s = true -> whisper_server (world sys) <> None) (sessions sys).

(** The number of [ProcessExit] events of a trace. *)
Definition is_exit (e : Event) : bool :=
  match e with ProcessExit _ _ => true | _ => false end.

Definition exits (evs : list Event) : nat := length (List.filter is_exit evs).

(** *** One session on its own *)

Definition session_run (evs : list SessionEvent) (w : World) (s : Session) : World * Session :=
  fold_left (fun st e => session_step e (fst st) (snd st)) evs (w, s).

(** What the two libraries hand to the loops for a data frame that
    arrives: aiohttp a message tagged [TEXT] or [BINARY], websockets a
    [str] or a [bytes]. *)
Definition message_of_frame (f : Frame) : WSMessage :=
  match f with
  | TextFrame s => mkMsg TEXT (VStr s)
  | BinaryFrame b => mkMsg BINARY (VBytes b)
  end.

Definition value_of_frame (f : Frame) : Val :=
  match f with
  | TextFrame s => VStr s
  | BinaryFrame b => VBytes b
  end.

(** A data frame arriving on one of the two legs of a session. *)
Inductive Arrival :=
| FromExternal (f : Frame)
| FromInternal (f : Frame).

(** The arrival as the handler sees it, the forward going through. *)
Definition arrives (a : Arrival) : SessionEvent :=
  match a with
  | FromExternal f => FromClient (Yield (message_of_frame f) None)
  | FromInternal f => FromServer (Yield (value_of_frame f) None)
  end.

Fixpoint externals (l : list Arrival) : list Frame :=
  match l with
  | [] => []
  | FromExternal f :: r => f :: externals r
  | FromInternal _ :: r => externals r
  end.

Fixpoint internals (l : list Arrival) : list Frame :=
  match l with
  | [] => []
  | FromInternal f :: r => f :: internals r
  | FromExternal _ :: r => internals r
  end.

(** The relay is under way: both loops were started and not both are
    over, and the wrapper has closed neither connection. *)
Definition relaying (s : Session) : Prop :=
  phase s = Relaying /\
  c2s s <> Idle /\ s2c s <> Idle /\
  exited (c2s s) && exited (s2c s) = false /\
  close_called (ws s) = false /\
  exists c, server_ws s = Some c /\ close_called c = false.

(** The handler has returned after a relay: both loops are over and the
    internal connection was closed on the way out. *)
Definition relayed (s : Session) : Prop :=
  phase s = Finished ReturnedWs /\
  exited (c2s s) && exited (s2c s) = true /\
  close_called (ws s) = false /\
  exists c, server_ws s = Some c /\ close_called c = true.

(** No internal connection was ever opened. *)
Definition unconnected (s : Session) : Prop :=
  server_ws s = None /\ c2s s = Idle /\ s2c s = Idle /\ phase s <> Relaying /\
  (close_called (ws s) = true -> phase s = Finished ReturnedWs).

Definition session_ok (s : Session) : Prop :=
  relaying s \/ relayed s \/ unconnected s.

(** Events of the service other than a message, a close or an error
    coming from the external peer of session [i]. *)
Definition not_from_client_of (i : nat) (e : Event) : bool :=
  match e with
  | Resume j (FromClient _) => negb (Nat.eqb j i)
  | _ => true
  end.

(** A GET on [/] that asks for the upgrade. *)
Definition upgrade_request : Request :=
  mkRequest "GET" "/" [("Connection", "Upgrade"); ("Upgrade", "websocket")].

(** A session up to the relay: the upgrade is accepted, the backend is
    started and given its three seconds, the internal connection opens. *)
Definition open_relay : list SessionEvent := [Prepared None; Woke; Connected None].

(** *** Bookkeeping over runs of the service *)

(** The handler's [except] clause was run for [e] by this step: the log
    of before is followed by what the step logged, which ends with the
    error line for [e] and the line of the [finally] clause. *)
Definition caught_by_handler (e : Exception) (w w' : World) : Prop :=
  exists l,
    log w' = log w ++ l ++ [ (L_ERROR, "WebSocket error: " +:+ e);
                             (L_INFO, "WebSocket connection closed") ].

(** What makes [ensure_whisper_server] or the import at the head of
    [proxy_websocket] raise [e] when the handler is resumed by [ev] in
    phase [ph]: after [ws.prepare], nothing runs and [Popen] fails, or the
    backend runs and the import fails; after the sleep, the import
    fails. *)
Definition setup_raises (e : Exception) (ph : Phase) (ev : SessionEvent) (w : World) : Prop :=
  (ph = Preparing /\ ev = Prepared None /\
   ((not_running w = true /\ fork_error w = Some e) \/
    (not_running w = false /\ import_websockets w = Some e))) \/
  (ph = InSleep /\ ev = Woke /\ import_websockets w = Some e).

(** How far a handler has come. *)
Definition rank (p : Phase) : nat :=
  match p with
  | Preparing => 0
  | InSleep => 1
  | Connecting => 2
  | Relaying => 3
  | Finished _ => 4
  end.

(** The frame a payload goes out as, if it goes out. *)
Definition frame_of (v : Val) : list Frame :=
  match v with
  | VStr s => [TextFrame s]
  | VBytes b => [BinaryFrame b]
  | _ => []
  end.

(** What an event of the service offers session [i] to forward inwards:
    the payload of a [TEXT] or [BINARY] message of its external peer. *)
Definition offered_in (i : nat) (e : Event) : list Frame :=
  match e with
  | Resume j (FromClient (Yield m _)) =>
      if Nat.eqb j i then
        match type m with
        | TEXT | BINARY => frame_of (data m)
        | _ => []
        end
      else []
  | _ => []
  end.

(** What it offers session [i] to forward outwards: a message of the
    backend on its internal connection. *)
Definition offered_out (i : nat) (e : Event) : list Frame :=
  match e with
  | Resume j (FromServer (Yield v _)) => if Nat.eqb j i then frame_of v else []
  | _ => []
  end.

(** The frames sent so far on the internal connection of a session. *)
Definition sent_in (s : Session) : list Frame :=
  match server_ws s with
  | Some c => sent c
  | None => []
  end.

(** What never changes while the service runs. *)
Definition config_of (w : World) : Z * string * option Exception :=
  (port w, sys_executable w, import_websockets w).

(** From [w] to [w']: the configuration is the same and the log has only
    been added to. *)
Definition grows (w w' : World) : Prop :=
  config_of w' = config_of w /\ exists l, log w' = log w ++ l.

(** From [w] to [w'] the log was added to, last of all the line of the
    [finally] clause of the handler. *)
Definition logs_the_close (w w' : World) : Prop :=
  exists l, log w' = log w ++ l ++ [(L_INFO, "WebSocket connection closed")].

End Wrapper.


(** ** whisper_api_server.py *)

Module WhisperApi.
Import Py Http.

(** An uploaded file of [request.files]. *)
Record FileStorage := mkFile { filename : string; content : list Byte.byte }.

(** The parts of a Flask request that [transcribe_audio] reads. *)
Record FlaskRequest := mkFlaskRequest {
  files : list (string * FileStorage);
  form : list (string * string)
}.

(** [d.get(key)] on a Flask multi-dict: the first value under the key. *)
Fixpoint lookup {A} (key : string) (d : list (string * A)) : option A :=
  match d with
  | [] => None
  | (k, v) :: r => if String.eqb k key then Some v else lookup key r
  end.

Definition ALLOWED_EXTENSIONS : list string :=
  ["wav"; "mp3"; "m4a"; "flac"; "aac"; "ogg"; "wma"; "mp4"].

(** ['.' in filename]. *)
Fixpoint has_dot (s : string) : bool :=
  match s with
  | EmptyString => false
  | String c r => Ascii.eqb c "." || has_dot r
  end.

(** [filename.rsplit('.', 1)[1]]: what follows the last dot. *)
Fixpoint after_last_dot (s : string) : option string :=
  match s with
  | EmptyString => None
  | String c r =>
      match after_last_dot r with
      | Some ext => Some ext
      | None => if Ascii.eqb c "." then Some r else None
      end
  end.

Definition allowed_file (name : string) : bool :=
  has_dot name &&
  match after_last_dot name with
  | Some ext => existsb (String.eqb (lower ext)) ALLOWED_EXTENSIONS
  | None => false
  end.

(** [str.strip()] removes the white space of Python at both ends: the
    code points U+0009 to U+000D, U+001C to U+0020, U+0085, U+00A0, U+1680,
    U+2000 to U+200A, U+2028, U+2029, U+202F, U+205F and U+3000, here by
    their UTF-8 bytes. *)
Definition is_space (c : ascii) : bool :=
  let n := nat_of_ascii c in
  ((9 <=? n)%nat && (n <=? 13)%nat) || ((28 <=? n)%nat && (n <=? 32)%nat).

(** U+0085 and U+00A0. *)
Definition is_space2 (c d : ascii) : bool :=
  (nat_of_ascii c =? 194)%nat &&
  ((nat_of_ascii d =? 133)%nat || (nat_of_ascii d =? 160)%nat).

(** U+1680; U+2000 to U+200A, U+2028, U+2029, U+202F; U+205F; U+3000. *)
Definition is_space3 (c d e : ascii) : bool :=
  let '(c, d, e) := (nat_of_ascii c, nat_of_ascii d, nat_of_ascii e) in
  ((c =? 225)%nat && (d =? 154)%nat && (e =? 128)%nat) ||
  ((c =? 226)%nat && (d =? 128)%nat &&
   (((128 <=? e)%nat && (e <=? 138)%nat) ||
    (e =? 168)%nat || (e =? 169)%nat || (e =? 175)%nat)) ||
  ((c =? 226)%nat && (d =? 129)%nat && (e =? 159)%nat) ||
  ((c =? 227)%nat && (d =? 128)%nat && (e =? 128)%nat).

(** The string is one code point of white space. *)
Definition one_space (s : string) : bool :=
  match s with
  | String c EmptyString => is_space c
  | String c (String d EmptyString) => is_space2 c d
  | String c (String d (String e EmptyString)) => is_space3 c d e
  | _ => false
  end.

Fixpoint lstrip (s : string) : string :=
  match s with
  | EmptyString => EmptyString
  | String c r =>
      if is_space c then lstrip r
      else
        match r with
        | String d r2 =>
            if is_space2 c d then lstrip r2
            else
              match r2 with
              | String e r3 => if is_space3 c d e then lstrip r3 else s
              | EmptyString => s
              end
        | EmptyString => s
        end
  end.

(** From the right: what is left of the tail, with the byte before it, is
    dropped when it is one code point of white space. *)
Fixpoint rstrip (s : string) : string :=
  match s with
  | EmptyString => EmptyString
  | String c r =>
      let t := String c (rstrip r) in
      if one_space t then EmptyString else t
  end.

Definition strip (s : string) : string := rstrip (lstrip s).

(** What [model.transcribe] returns, as far as the endpoint reads it. *)
Record WhisperResult := mkResult {
  text : string;
  language : string;
  segments : Json
}.

(** The keyword arguments of the call of line 66; the threshold passed
    there is the double nearest to 0.8. *)
Record TranscribeArgs := mkArgs {
  arg_language : string;
  arg_temperature : float;
  no_speech_threshold : float;
  fp16 : bool
}.

(** What goes wrong on disk: [NamedTemporaryFile] cannot create the file,
    or the file is created and [file.save] fails after writing [partial]
    to it. *)
Inductive DiskError :=
| CannotCreate (e : Exception)
| CannotSave (e : Exception) (partial : list Byte.byte).

(** The application: the model size read at import, the temporary files
    on disk (name and content), the next free name, the error the next
    request meets on disk, the log. *)
Record App := mkApp {
  MODEL_SIZE : string;
  tempfiles : list (nat * list Byte.byte);
  next_temp : nat;
  disk_error : option DiskError;
  log : list LogRecord
}.

Definition logger (lv : Level) (m : string) (a : App) : App :=
  mkApp (MODEL_SIZE a) (tempfiles a) (next_temp a) (disk_error a) (log a ++ [(lv, m)]).

(** The [with] block of lines 59 to 61:
    [tempfile.NamedTemporaryFile(delete=False, suffix='.audio')], then
    [file.save(temp_file.name)] and the assignment of [temp_filename].  An
    exception of [NamedTemporaryFile] leaves the disk as it was; an
    exception of [file.save] leaves the [with] block, which closes the
    file and, with [delete=False], keeps it. *)
Definition save_temp (f : FileStorage) (a : App) : App * nat + App * Exception :=
  match disk_error a with
  | Some (CannotCreate e) => inr (a, e)
  | Some (CannotSave e partial) =>
      inr (mkApp (MODEL_SIZE a) (tempfiles a ++ [(next_temp a, partial)])
                 (S (next_temp a)) (disk_error a) (log a),
           e)
  | None =>
      inl (mkApp (MODEL_SIZE a) (tempfiles a ++ [(next_temp a, content f)])
                 (S (next_temp a)) None (log a),
           next_temp a)
  end.

(** [os.unlink(temp_filename)]. *)
Definition unlink (name : nat) (a : App) : App :=
  mkApp (MODEL_SIZE a)
        (List.filter (fun f => negb (Nat.eqb (fst f) name)) (tempfiles a))
        (next_temp a) (disk_error a) (log a).

Definition error_body (m : string) : Json := JObj [("error", JStr m)].

(** [jsonify(body), code]. *)
Definition jsonify (code : Z) (j : Json) : Response := mkResponse code "application/json" j.

Section Endpoint.

(** Python's [float()] on a string, and the loaded Whisper model run on the
    content of a file: both belong to the environment of the endpoint. *)
Variable py_float : string -> float + Exception.
Variable model_transcribe : list Byte.byte -> TranscribeArgs -> WhisperResult + Exception.

(** [float(request.form.get('temperature', 0.0))]. *)
Definition temperature_of (req : FlaskRequest) : float + Exception :=
  match lookup "temperature" (form req) with
  | Some s => py_float s
  | None => inl 0%float
  end.

(** The [except Exception] clause of line 89. *)
Definition transcription_failed (e : Exception) (a : App) : App * Response :=
  (logger L_ERROR ("Transcription error: " +:+ e) a,
   jsonify 500 (error_body ("Transcription failed: " +:+ e))).

(** [transcribe_audio]. *)
Definition transcribe_audio (req : FlaskRequest) (a : App) : App * Response :=
  match lookup "audio" (files req) with
  | None => (a, jsonify 400 (error_body "No audio file provided"))
  | Some file =>
      if String.eqb (filename file) "" then
        (a, jsonify 400 (error_body "No file selected"))
      else if negb (allowed_file (filename file)) then
        (a, jsonify 400 (error_body "Unsupported file format"))
      else
        let lang :=
          match lookup "language" (form req) with Some l => l | None => "en" end in
        match temperature_of req with
        | inr e => transcription_failed e a
        | inl temperature =>
            match save_temp file a with
            | inr (a1, e) => transcription_failed e a1
            | inl (a1, temp_filename) =>
                let a2 :=
                  logger L_INFO ("Transcribing audio file: " +:+ filename file) a1 in
                match model_transcribe (content file)
                        (mkArgs lang temperature 0x1.999999999999ap-1%float false) with
                | inr e => transcription_failed e (unlink temp_filename a2)
                | inl result =>
                    let response :=
                      JObj [ ("text", JStr (strip (text result)));
                             ("language", JStr (language result));
                             ("segments", segments result);
                             ("model", JStr (MODEL_SIZE a2)) ] in
                    let a3 :=
                      logger L_INFO
                        ("Transcription completed: " +:+
                         str_of_int (Z.of_nat (len (text result))) +:+
                         " characters") a2 in
                    (unlink temp_filename a3, jsonify 200 response)
                end
            end
        end
  end.

End Endpoint.

(** A [float()] that reads unsigned decimal integers only, and a model
    that hears nothing: an environment to run the endpoint in. *)
Fixpoint digits_value (s : string) (acc : Z) : option Z :=
  match s with
  | EmptyString => Some acc
  | String c r =>
      let n := nat_of_ascii c in
      if (48 <=? n)%nat && (n <=? 57)%nat
      then digits_value r (10 * acc + Z.of_nat (n - 48))
      else None
  end.

Definition float_of_digits (s : string) : float + Exception :=
  match s with
  | EmptyString => inr "could not convert string to float: ''"
  | _ =>
      match digits_value s 0 with
      | Some z => inl (PrimFloat.of_uint63 (Uint63.of_Z z))
      | None => inr ("could not convert string to float: '" +:+ s +:+ "'")
      end
  end.

Definition silent_model (_ : list Byte.byte) (args : TranscribeArgs)
  : WhisperResult + Exception :=
  inl (mkResult " " (arg_language args) (JArr [])).

Definition fresh_app : App := mkApp "medium" [] 0 None [].

(** [health_check] of the API server. *)
Definition health_check (a : App) : Response :=
  jsonify 200 (JObj
    [ ("status", JStr "healthy");
      ("model", JStr (MODEL_SIZE a));
      ("service", JStr "whisper-api") ]).

(** [index]. *)
Definition index (a : App) : Response :=
  jsonify 200 (JObj
    [ ("service", JStr "Whisper Transcription API");
      ("model", JStr (MODEL_SIZE a));
      ("endpoints", JObj
         [ ("health", JStr "/health");
           ("transcribe", JStr "/transcribe (POST with 'audio' file)") ]);
      ("supported_formats", JArr (map JStr ALLOWED_EXTENSIONS)) ]).

(** [j[key]] on a JSON object. *)
Definition field (key : string) (j : Json) : option Json :=
  match j with
  | JObj fs => lookup key fs
  | _ => None
  end.

(** The names of the temporary files on disk are below the next free
    name. *)
Definition names_fresh (a : App) : Prop :=
  Forall (fun f => fst f < next_temp a) (tempfiles a).

(** The three checks on the uploaded file, lines 44 to 52. *)
Definition file_checks_pass (req : FlaskRequest) : bool :=
  match lookup "audio" (files req) with
  | None => false
  | Some file => negb (String.eqb (filename file) "") && allowed_file (filename file)
  end.

End WhisperApi.

(** * Properties of the wrapper *)

Module WrapperProofs.
Import Py Http Wrapper.

(** ** ensure_whisper_server *)

Lemma not_running_cases (w : World) :
  not_running w = true <->
  whisper_server w = None \/
  exists h rc, whisper_server w = Some h /\ poll w h = Some rc.
Proof.
  unfold not_running. split.
  - destruct (whisper_server w) as [h|]; [|now left].
    destruct (poll w h) as [rc|] eqn:E; [|discriminate].
    intros _. right. now exists h, rc.
  - intros [->|(h & rc & -> & ->)]; reflexivity.
Qed.

(** C4: [ensure_whisper_server] starts a backend exactly when none is
    tracked or the tracked one has exited ([poll()] is not [None]); it then
    starts [run_server.py --port 9091 --backend faster_whisper], tracks it,
    sleeps 3 seconds and returns without touching the process table again;
    when the tracked process runs it returns at once, the world unchanged. *)
Theorem ensure_whisper_server_spawns_iff_not_running (w : World) :
  (not_running w = true <->
     whisper_server w = None \/
     exists h rc, whisper_server w = Some h /\ poll w h = Some rc) /\
  (not_running w = false -> ensure_whisper_server w = (w, Returned)) /\
  (not_running w = true -> fork_error w = None ->
     exists w',
       ensure_whisper_server w = (w', Sleeping 3) /\
       procs w' =
         procs w ++ [mkPopen [sys_executable w; "run_server.py"; "--port"; "9091";
                              "--backend"; "faster_whisper"] None] /\
       whisper_server w' = Some (length (procs w)) /\
       procs (ensure_whisper_server_resume w') = procs w' /\
       whisper_server (ensure_whisper_server_resume w') = whisper_server w') /\
  (fork_error w = None ->
     (length (procs (fst (ensure_whisper_server w))) = S (length (procs w))
      <-> not_running w = true)).
Proof.
  split; [apply not_running_cases|].
  unfold ensure_whisper_server, subprocess_Popen.
  split; [intros ->; reflexivity|].
  split.
  - intros -> E. cbn. rewrite E. eexists. split; [reflexivity|].
    cbn. repeat split.
  - intros E. destruct (not_running w); cbn; rewrite ?E; cbn.
    + rewrite length_app. cbn. split; [reflexivity|lia].
    + split; [lia|discriminate].
Qed.

Lemma ensure_whisper_server_spawns_iff_not_running_witness :
  let w := init 9090 "/usr/bin/python3" None 0%float in
  not_running w = true /\ fork_error w = None /\
  exists w',
    ensure_whisper_server w = (w', Sleeping 3) /\
    procs w' =
      procs w ++ [mkPopen [sys_executable w; "run_server.py"; "--port"; "9091";
                           "--backend"; "faster_whisper"] None] /\
    whisper_server w' = Some (length (procs w)) /\
    procs (ensure_whisper_server_resume w') = procs w' /\
    whisper_server (ensure_whisper_server_resume w') = whisper_server w'.
Proof.
  split; [reflexivity|]. split; [reflexivity|].
  apply (ensure_whisper_server_spawns_iff_not_running
           (init 9090 "/usr/bin/python3" None 0%float)); reflexivity.
Defined.

(** ** The HTTP endpoints *)

(** C5: the wrapper cannot be constructed, so no request to [/health] is
    ever answered.  [add_get('/health', ...)] registers the handler for
    HEAD as well as for GET, so the [add_head('/health', ...)] of line 34
    is refused with a [RuntimeError], which leaves [setup_routes] and
    [__init__].  Without that call, GET and HEAD on [/health] both reach
    the handler, and the handler itself is as the claim says: on any
    request and in any state it answers 200 with the fields status,
    service, backend and timestamp and leaves the port, the tracked
    process and the process table as they were. *)
Theorem health_head_registration_raises :
  add_get "/health" route_health_check [] =
    inl [mkResource "/health" [("HEAD", route_health_check); ("GET", route_health_check)]] /\
  add_head "/health" route_health_check
    [mkResource "/health" [("HEAD", route_health_check); ("GET", route_health_check)]] =
    inr "Added route will never be executed, method HEAD is already registered" /\
  setup_routes [] =
    inr "Added route will never be executed, method HEAD is already registered" /\
  (forall p exe imp t,
     RailwayWhisperLiveWrapper p exe imp t =
       inr "Added route will never be executed, method HEAD is already registered") /\
  (forall hs,
     resolve_in registered (mkRequest "GET" "/health" hs) = Some route_health_check /\
     resolve_in registered (mkRequest "HEAD" "/health" hs) = Some route_health_check) /\
  (forall req w,
     let r := health_check req w in
     status (snd r) = 200%Z /\
     content_type (snd r) = "application/json" /\
     keys (body (snd r)) = ["status"; "service"; "backend"; "timestamp"] /\
     port (fst r) = port w /\
     whisper_server (fst r) = whisper_server w /\
     procs (fst r) = procs w).
Proof.
  split; [reflexivity|]. split; [reflexivity|]. split; [reflexivity|].
  split; [reflexivity|]. split; [split; reflexivity|].
  intros req w. cbn. repeat split.
Qed.

(** C8: when the upgrade header of the request, in lower case, is not
    [websocket], the handler answers at once with the 200 service-info
    body: no session is created, so nothing is relayed, and the world
    (tracked process, process table, log) is as it was. *)
Theorem plain_get_root_never_spawns (req : Request) (sys : System) :
  is_upgrade req = false ->
  let r := service_info (world sys) in
  let sys' := websocket_handler req sys in
  responses sys' = responses sys ++ [r] /\
  status r = 200%Z /\
  content_type r = "application/json" /\
  keys (body r) = ["service"; "status"; "backend"; "websocket_url"] /\
  world sys' = world sys /\
  sessions sys' = sessions sys.
Proof.
  intros Hu r sys'. subst r sys'.
  unfold websocket_handler. rewrite Hu. cbn. repeat split.
Qed.

Lemma plain_get_root_never_spawns_witness :
  let req := mkRequest "GET" "/" [("Accept", "*/*"); ("Upgrade", "h2c")] in
  let sys :=
    run [Arrive upgrade_request; Resume 0 (Prepared None)]
        (boot 9090 "/usr/bin/python3" None 0%float) in
  let r := service_info (world sys) in
  let sys' := websocket_handler req sys in
  is_upgrade req = false /\
  responses sys' = responses sys ++ [r] /\
  status r = 200%Z /\
  content_type r = "application/json" /\
  keys (body r) = ["service"; "status"; "backend"; "websocket_url"] /\
  world sys' = world sys /\
  sessions sys' = sessions sys.
Proof.
  split; [reflexivity|].
  apply (plain_get_root_never_spawns
           (mkRequest "GET" "/" [("Accept", "*/*"); ("Upgrade", "h2c")])
           (run [Arrive upgrade_request; Resume 0 (Prepared None)]
                (boot 9090 "/usr/bin/python3" None 0%float))).
  reflexivity.
Defined.

(** ** One backend under any interleaving *)

Lemma client_to_server_backend ev w cli srv :
  backend_of (fst (fst (client_to_server ev w cli srv))) = backend_of w.
Proof.
  destruct ev as [[[] d] err| |e]; cbn; try reflexivity;
    destruct (send d err srv); reflexivity.
Qed.

Lemma server_to_client_backend ev w cli :
  backend_of (fst (fst (server_to_client ev w cli))) = backend_of w.
Proof.
  destruct ev as [m err| |e]; cbn; try reflexivity.
  destruct (isinstance_str m).
  - destruct (send_str m err cli); reflexivity.
  - destruct (isinstance_bytes m); [|reflexivity].
    destruct (send_bytes m err cli); reflexivity.
Qed.

Lemma gather_backend w s : backend_of (fst (gather w s)) = backend_of w.
Proof. unfold gather. destruct (exited (c2s s) && exited (s2c s)); reflexivity. Qed.

Lemma proxy_websocket_backend w s :
  backend_of (fst (proxy_websocket w s)) = backend_of w.
Proof. unfold proxy_websocket. destruct (import_websockets w); reflexivity. Qed.

(** A handler touches the backend state only in the segment that runs
    [ensure_whisper_server], and there only by starting a process. *)
Lemma session_step_backend ev w s :
  let w' := fst (session_step ev w s) in
  backend_of w' = backend_of w \/
  (phase s = Preparing /\ ev = Prepared None /\
   not_running w = true /\ fork_error w = None /\
   backend_of w' =
     (Some (length (procs w)), procs w ++ [mkPopen (backend_argv w) None], None)).
Proof.
  unfold session_step.
  destruct (phase s) eqn:Hp, ev as [[e|]| |[e|]|lev|lev]; cbn; try (left; reflexivity).
  - unfold ensure_whisper_server, subprocess_Popen. cbn.
    change (not_running (logger L_INFO "New WebSocket connection established" w))
      with (not_running w).
    destruct (not_running w) eqn:Hn; [|left; now rewrite proxy_websocket_backend].
    destruct (fork_error w) eqn:Hf; cbn; [left; unfold backend_of; cbn; now rewrite Hf|].
    right. repeat split; try reflexivity.
    unfold backend_of. cbn. now rewrite Hf.
  - left. now rewrite proxy_websocket_backend.
  - destruct (c2s s); try (left; reflexivity).
    destruct (server_ws s) as [srv|]; [|left; reflexivity].
    pose proof (client_to_server_backend lev w (receive_client lev (ws s)) srv) as H.
    destruct (client_to_server lev w (receive_client lev (ws s)) srv) as [[w1 srv1] l].
    cbn in H. left. now rewrite gather_backend.
  - destruct (s2c s); try (left; reflexivity).
    destruct (server_ws s) as [srv|]; [|left; reflexivity].
    pose proof (server_to_client_backend lev w (ws s)) as H.
    destruct (server_to_client lev w (ws s)) as [[w1 cli] l].
    cbn in H. left. now rewrite gather_backend.
Qed.

(** What one event does to the backend state: nothing, a spawn (when
    nothing runs and [Popen] works), the exit of a process, or a change of
    what [Popen] will answer. *)
Lemma step_backend ev sys :
  let w := world sys in
  let w' := world (step ev sys) in
  (is_exit ev = false /\ whisper_server w' = whisper_server w /\ procs w' = procs w /\
   (fork_error w' = fork_error w \/ exists err, ev = ForkAnswer err))
  \/ (is_exit ev = false /\ not_running w = true /\ fork_error w = None /\
      backend_of w' =
        (Some (length (procs w)), procs w ++ [mkPopen (backend_argv w) None], None))
  \/ (exists h rc, ev = ProcessExit h rc /\ whisper_server w' = whisper_server w /\
      procs w' = exit_process h rc (procs w) /\ fork_error w' = fork_error w).
Proof.
  destruct ev as [req|i sev|h rc|err|t]; cbn.
  - left. unfold serve. destruct (resolve req) as [[]|]; cbn; auto.
    unfold websocket_handler. destruct (is_upgrade req); cbn; auto.
  - destruct (sessions sys !! i) as [s|] eqn:Hs; [|left; auto].
    pose proof (session_step_backend sev (world sys) s) as H.
    destruct (session_step sev (world sys) s) as [w1 s1]. cbn in *.
    destruct H as [H|(_ & _ & Hn & Hf & H)].
    + left. unfold backend_of in H. injection H as H1 H2 H3. auto.
    + right. left. auto.
  - right. right. exists h, rc. auto.
  - left. repeat split; eauto.
  - left. auto.
Qed.

Lemma filter_running_stopped (l : list Popen) :
  Forall (fun q => running q = false) l ->
  List.filter running l = [] /\ List.filter (fun p => negb (running p)) l = l.
Proof.
  induction 1 as [|q l Hq _ [IH1 IH2]]; [split; reflexivity|].
  cbn. rewrite Hq, IH1, IH2. split; reflexivity.
Qed.

Lemma exit_process_keeps_shape h rc old p :
  Forall (fun q => running q = false) old ->
  exists p', exit_process h rc (old ++ [p]) = old ++ [p'].
Proof.
  intros Hold. unfold exit_process.
  destruct ((old ++ [p]) !! h) as [q|] eqn:Hq; [|now exists p].
  destruct (returncode q) eqn:Hrc; [now exists p|].
  apply lookup_app_Some in Hq as [Hq|[Hlen Hq]].
  - rewrite Forall_lookup in Hold. specialize (Hold _ _ Hq).
    unfold running in Hold. rewrite Hrc in Hold. discriminate.
  - destruct (h - length old) as [|k] eqn:Hk; [|discriminate].
    assert (h = length old + 0) as -> by lia.
    rewrite insert_app_r. cbn. eauto.
Qed.

Lemma tracked_last_step ev sys :
  tracked_last (world sys) -> tracked_last (world (step ev sys)).
Proof.
  intros Inv.
  destruct (step_backend ev sys) as
    [(_ & Hw & Hp & _)|[(_ & Hn & _ & Hb)|(h & rc & _ & Hw & Hp & _)]];
    unfold tracked_last in *.
  - now rewrite Hw, Hp.
  - unfold backend_of in Hb. injection Hb as Hw Hp _. rewrite Hw, Hp.
    exists (procs (world sys)), (mkPopen (backend_argv (world sys)) None).
    repeat split.
    unfold not_running, poll in Hn.
    destruct (whisper_server (world sys)) as [h|]; [|rewrite Inv; constructor].
    destruct Inv as (old & p & Hp' & -> & Hold). rewrite Hp' in *.
    rewrite list_lookup_middle in Hn by reflexivity.
    apply Forall_app. split; [exact Hold|].
    constructor; [|constructor]. unfold running.
    destruct (returncode p); [reflexivity|discriminate].
  - rewrite Hw, Hp.
    destruct (whisper_server (world sys)) as [k|].
    + destruct Inv as (old & p & -> & -> & Hold).
      destruct (exit_process_keeps_shape h rc old p Hold) as [p' ->]. eauto.
    + rewrite Inv. reflexivity.
Qed.

Lemma run_tracked_last evs : forall sys,
  tracked_last (world sys) -> tracked_last (world (run evs sys)).
Proof.
  induction evs as [|ev evs IH]; intros sys Inv; [exact Inv|].
  cbn. apply IH, tracked_last_step, Inv.
Qed.

Lemma insert_filter_length {A} (f : A -> bool) (x : A) : forall (l : list A) (h : nat),
  length (List.filter f (<[h:=x]> l)) <= S (length (List.filter f l)).
Proof.
  induction l as [|a l IH]; intros [|h]; simpl; try lia.
  - destruct (f x), (f a); simpl; lia.
  - specialize (IH h). destruct (f a); simpl; lia.
Qed.

Lemma step_stopped ev sys :
  length (stopped (world (step ev sys))) <=
  length (stopped (world sys)) + (if is_exit ev then 1 else 0).
Proof.
  unfold stopped.
  destruct (step_backend ev sys) as
    [(-> & _ & -> & _)|[(-> & _ & _ & Hb)|(h & rc & -> & _ & -> & _)]].
  - lia.
  - unfold backend_of in Hb. injection Hb as _ -> _.
    rewrite List.filter_app, length_app. cbn. lia.
  - cbn. unfold exit_process.
    destruct (procs (world sys) !! h) as [q|]; [|lia].
    destruct (returncode q); [lia|].
    pose proof (insert_filter_length (fun p => negb (running p))
                  (mkPopen (args q) (Some rc)) (procs (world sys)) h). lia.
Qed.

Lemma run_stopped evs : forall sys,
  length (stopped (world (run evs sys))) <= length (stopped (world sys)) + exits evs.
Proof.
  induction evs as [|ev evs IH]; intros sys; [cbn; lia|].
  change (run (ev :: evs) sys) with (run evs (step ev sys)).
  specialize (IH (step ev sys)). pose proof (step_stopped ev sys) as H.
  unfold exits in *. simpl List.filter.
  destruct (is_exit ev); simpl length; lia.
Qed.

Lemma tracked_last_bounds w :
  tracked_last w ->
  length (live w) <= 1 /\ length (procs w) <= 1 + length (stopped w).
Proof.
  unfold tracked_last, live, stopped.
  destruct (whisper_server w) as [h|]; [|intros ->; cbn; lia].
  intros (old & p & -> & _ & Hold).
  destruct (filter_running_stopped old Hold) as [H1 H2].
  rewrite !List.filter_app, H1, H2, !length_app. cbn.
  destruct (running p); cbn; lia.
Qed.

Lemma session_step_past_ensure sev w s :
  past_ensure (snd (session_step sev w s)) = true ->
  past_ensure s = true \/
  whisper_server (fst (session_step sev w s)) <> None \/
  fork_error w <> None.
Proof.
  unfold session_step, past_ensure at 2.
  destruct (phase s) eqn:Hp; try (intros _; left; reflexivity).
  - destruct sev as [[e|]| |[e|]|lev|lev]; cbn; unfold past_ensure; cbn;
      rewrite ?Hp; try discriminate.
    intros _. right.
    unfold ensure_whisper_server, subprocess_Popen. cbn.
    change (not_running (logger L_INFO "New WebSocket connection established" w))
      with (not_running w).
    unfold not_running.
    destruct (whisper_server w) as [h|] eqn:Hw.
    + destruct (poll w h); cbn.
      * destruct (fork_error w); cbn; [right|left]; discriminate.
      * left.
        pose proof (proxy_websocket_backend
                      (logger L_INFO "New WebSocket connection established" w) s) as H.
        unfold backend_of in H. injection H as -> _ _. cbn. rewrite Hw. discriminate.
    + destruct (fork_error w); cbn; [right|left]; discriminate.
  - destruct r as [|e]; [intros _; left; reflexivity|].
    destruct sev as [[e'|]| |[e'|]|lev|lev]; cbn; unfold past_ensure; cbn;
      rewrite ?Hp; discriminate.
Qed.

Lemma step_steady ev sys :
  calm ev = true -> steady sys -> steady (step ev sys).
Proof.
  intros Hc (Hf & Hrun & Hs). unfold steady.
  destruct ev as [req|i sev|h rc|[err|]|t]; try discriminate; cbn.
  - unfold serve. destruct (resolve req) as [[]|]; cbn; auto.
    unfold websocket_handler. destruct (is_upgrade req); cbn; auto.
    repeat split; auto. apply Forall_app. split; [exact Hs|].
    constructor; [discriminate|constructor].
  - destruct (sessions sys !! i) as [s|] eqn:Hi; [|auto].
    pose proof (session_step_backend sev (world sys) s) as Hb.
    pose proof (session_step_past_ensure sev (world sys) s) as Hpe.
    destruct (session_step sev (world sys) s) as [w1 s1]. cbn in *.
    assert (Hmono : whisper_server (world sys) <> None -> whisper_server w1 <> None).
    { destruct Hb as [Hb|(_ & _ & _ & _ & Hb)]; unfold backend_of in Hb;
        injection Hb as -> _ _; [auto|discriminate]. }
    assert (Hs1 : past_ensure s1 = true -> whisper_server w1 <> None).
    { intros H. destruct (Hpe H) as [H'|[H'|H']]; [|exact H'|contradiction].
      apply Hmono. rewrite Forall_lookup in Hs. exact (Hs _ _ Hi H'). }
    destruct Hb as [Hb|(_ & _ & _ & _ & Hb)]; unfold backend_of in Hb;
      injection Hb as Hw Hp Hfe; rewrite Hp, Hfe.
    + repeat split; auto. apply Forall_insert; [|exact Hs1].
      eapply Forall_impl; [exact Hs|]. cbn. auto.
    + repeat split; auto.
      * apply Forall_app. split; [exact Hrun|]. constructor; [reflexivity|constructor].
      * apply Forall_insert; [|exact Hs1].
        eapply Forall_impl; [exact Hs|]. cbn. intros. rewrite Hw. discriminate.
  - auto.
  - auto.
Qed.

Lemma run_steady evs : forall sys,
  forallb calm evs = true -> steady sys -> steady (run evs sys).
Proof.
  induction evs as [|ev evs IH]; intros sys Hc Hs; [exact Hs|].
  cbn in Hc. apply andb_true_iff in Hc as [Hc1 Hc2].
  cbn. apply IH; [exact Hc2|]. apply step_steady; assumption.
Qed.

Lemma boot_tracked_last p exe imp t : tracked_last (world (boot p exe imp t)).
Proof. reflexivity. Qed.

Lemma boot_steady p exe imp t : steady (boot p exe imp t).
Proof. repeat split; constructor. Qed.

(** C1: in every interleaving of handler segments, process exits and
    other events after the start of the service, with any number of upgrade
    requests in flight, at most one backend process is alive; the number of
    processes started is at most one more than the number of process exits;
    and as long as no process exits and [Popen] does not fail, exactly one
    process has been started once any handler has been through
    [ensure_whisper_server].  The check and the spawn lie in one segment of
    the coroutine (no [await] between lines 82 and 88), which is what
    serializes them. *)
Theorem concurrent_upgrades_spawn_once
  (p : Z) (exe : string) (imp : option Exception) (t : float) (evs : list Event) :
  let sys := run evs (boot p exe imp t) in
  length (live (world sys)) <= 1 /\
  length (procs (world sys)) <= 1 + exits evs /\
  (forallb calm evs = true ->
   (exists i s, sessions sys !! i = Some s /\ past_ensure s = true) ->
   length (procs (world sys)) = 1).
Proof.
  intros sys.
  pose proof (run_tracked_last evs _ (boot_tracked_last p exe imp t)) as Ht.
  pose proof (run_stopped evs (boot p exe imp t)) as Hs.
  fold sys in Ht, Hs.
  destruct (tracked_last_bounds _ Ht) as [Hl Hp].
  split; [exact Hl|]. split; [cbn in Hs; lia|].
  intros Hc (i & s & Hi & Hpe).
  destruct (run_steady evs _ Hc (boot_steady p exe imp t)) as (_ & Hrun & Hsess).
  fold sys in Hrun, Hsess.
  rewrite Forall_lookup in Hsess. specialize (Hsess _ _ Hi Hpe).
  unfold tracked_last in Ht.
  destruct (whisper_server (world sys)); [|contradiction].
  destruct Ht as (old & q & Hq & _ & Hold). rewrite Hq in *.
  apply Forall_app in Hrun as [Hrun _].
  destruct old as [|o old]; [reflexivity|].
  apply Forall_cons in Hrun as [Ho _]. apply Forall_cons in Hold as [Ho' _].
  congruence.
Qed.

Lemma concurrent_upgrades_spawn_once_witness :
  let up := mkRequest "GET" "/" [("Upgrade", "websocket")] in
  let evs :=
    [ Arrive up; Arrive up; Resume 0 (Prepared None); Arrive up;
      Resume 1 (Prepared None); Resume 0 Woke; Resume 2 (Prepared None);
      Resume 1 (Connected None) ] in
  let sys := run evs (boot 9090 "/usr/bin/python3" None 0%float) in
  forallb calm evs = true /\
  (exists i s, sessions sys !! i = Some s /\ past_ensure s = true) /\
  length (procs (world sys)) = 1.
Proof.
  split; [reflexivity|]. split.
  - exists 2. eexists. split; reflexivity.
  - apply (concurrent_upgrades_spawn_once 9090 "/usr/bin/python3" None 0%float
             [ Arrive (mkRequest "GET" "/" [("Upgrade", "websocket")]);
               Arrive (mkRequest "GET" "/" [("Upgrade", "websocket")]);
               Resume 0 (Prepared None);
               Arrive (mkRequest "GET" "/" [("Upgrade", "websocket")]);
               Resume 1 (Prepared None); Resume 0 Woke; Resume 2 (Prepared None);
               Resume 1 (Connected None) ]).
    + reflexivity.
    + exists 2. eexists. split; reflexivity.
Defined.

(** Three upgrade requests before the backend has started: the first
    handler to run starts it and sleeps, the other two find it running and
    go straight to the connect. *)
Example three_requests_one_backend :
  let up := mkRequest "GET" "/" [("upgrade", "WebSocket")] in
  let sys := run [ Arrive up; Arrive up; Arrive up; Resume 1 (Prepared None);
                   Resume 0 (Prepared None); Resume 2 (Prepared None) ]
                 (boot 9090 "/usr/bin/python3" None 0%float) in
  map phase (sessions sys) = [Connecting; InSleep; Connecting] /\
  map args (procs (world sys)) =
    [["/usr/bin/python3"; "run_server.py"; "--port"; "9091"; "--backend"; "faster_whisper"]] /\
  whisper_server (world sys) = Some 0.
Proof. repeat split. Qed.

(** The bound with exits is reached: a backend that exits during the sleep
    is replaced by the next handler. *)
Example backend_replaced_after_exit :
  let up := mkRequest "GET" "/" [("Upgrade", "websocket")] in
  let sys := run [ Arrive up; Arrive up; Resume 0 (Prepared None); ProcessExit 0 1;
                   Resume 1 (Prepared None) ]
                 (boot 9090 "/usr/bin/python3" None 0%float) in
  map returncode (procs (world sys)) = [Some 1%Z; None] /\
  whisper_server (world sys) = Some 1.
Proof. repeat split. Qed.

(** ** The relay *)

Lemma send_close_called v err c c' :
  send v err c = inl c' -> close_called c' = close_called c.
Proof. unfold send. destruct err, v; intros [= <-]; reflexivity. Qed.

Lemma send_str_close_called v err c c' :
  send_str v err c = inl c' -> close_called c' = close_called c.
Proof. unfold send_str. destruct err, v; intros [= <-]; reflexivity. Qed.

Lemma send_bytes_close_called v err c c' :
  send_bytes v err c = inl c' -> close_called c' = close_called c.
Proof. unfold send_bytes. destruct err, v; intros [= <-]; reflexivity. Qed.

Lemma client_to_server_conn lev w cli srv :
  let r := client_to_server lev w cli srv in
  close_called (snd (fst r)) = close_called srv /\ snd r <> Idle.
Proof.
  destruct lev as [[ty d] err| |e]; cbn; [|split; [reflexivity|discriminate]..].
  destruct ty; cbn; try (split; [reflexivity|discriminate]);
    destruct (send d err srv) eqn:E; cbn;
    (split; [eauto using send_close_called|discriminate]).
Qed.

Lemma server_to_client_conn lev w cli :
  let r := server_to_client lev w cli in
  close_called (snd (fst r)) = close_called cli /\ snd r <> Idle.
Proof.
  destruct lev as [m err| |e]; cbn; [|split; [reflexivity|discriminate]..].
  destruct (isinstance_str m).
  - destruct (send_str m err cli) eqn:E; cbn;
      (split; [eauto using send_str_close_called|discriminate]).
  - destruct (isinstance_bytes m); [|split; [reflexivity|discriminate]].
    destruct (send_bytes m err cli) eqn:E; cbn;
      (split; [eauto using send_bytes_close_called|discriminate]).
Qed.

Lemma receive_client_close_called lev c :
  close_called (receive_client lev c) = close_called c.
Proof. destruct lev as [[[] []] ?| |?]; reflexivity. Qed.

Lemma receive_server_close_called lev c :
  close_called (receive_server lev c) = close_called c.
Proof. destruct lev; reflexivity. Qed.

(** After a turn of one of the loops, [gather] either keeps waiting or,
    both loops being over, lets the handler close [server_ws] and return. *)
Lemma gather_relaying w cli srv l1 l2 :
  l1 <> Idle -> l2 <> Idle ->
  close_called cli = false -> close_called srv = false ->
  let s' := snd (gather w (mkSession Relaying cli (Some srv) l1 l2)) in
  relaying s' \/ relayed s'.
Proof.
  intros H1 H2 Hc Hs. unfold gather. cbn.
  destruct (exited l1 && exited l2) eqn:E; cbn.
  - right. repeat split; cbn; eauto.
  - left. repeat split; cbn; eauto.
Qed.

(** While the relay is under way every event leaves it under way or ends
    it with the teardown. *)
Lemma relaying_step ev w s :
  relaying s ->
  let s' := snd (session_step ev w s) in relaying s' \/ relayed s'.
Proof.
  intros Hs. pose proof Hs as (Hp & H1 & H2 & Hex & Hc & srv & Hsrv & Hsc).
  unfold session_step. rewrite Hp.
  destruct ev as [err| |err|lev|lev]; try (left; exact Hs).
  - destruct (c2s s) eqn:Hl; try (left; exact Hs). rewrite Hsrv.
    pose proof (client_to_server_conn lev w (receive_client lev (ws s)) srv) as [Ha Hb].
    destruct (client_to_server lev w (receive_client lev (ws s)) srv) as [[w1 srv1] l].
    cbn in Ha, Hb. apply gather_relaying; auto.
    + now rewrite receive_client_close_called.
    + congruence.
  - destruct (s2c s) eqn:Hl; try (left; exact Hs). rewrite Hsrv.
    pose proof (server_to_client_conn lev w (ws s)) as [Ha Hb].
    destruct (server_to_client lev w (ws s)) as [[w1 cli] l].
    cbn in Ha, Hb. apply gather_relaying; auto.
    + congruence.
    + now rewrite receive_server_close_called.
Qed.

Lemma proxy_websocket_unconnected w s :
  server_ws s = None -> c2s s = Idle -> s2c s = Idle -> close_called (ws s) = false ->
  unconnected (snd (proxy_websocket w s)).
Proof.
  intros H1 H2 H3 H4. unfold proxy_websocket.
  destruct (import_websockets w); repeat split; cbn; auto; try discriminate.
  rewrite H4. discriminate.
Qed.

Lemma session_step_ok ev w s :
  session_ok s -> session_ok (snd (session_step ev w s)).
Proof.
  intros [Hs|[Hs|Hs]].
  - destruct (relaying_step ev w s Hs) as [H|H]; [left|right; left]; exact H.
  - destruct Hs as (Hp & Hrest). unfold session_step. rewrite Hp.
    right. left. split; [|exact Hrest].
    destruct ev; exact Hp.
  - destruct Hs as (Hsrv & H1 & H2 & Hp & Hc).
    assert (Hsame : session_ok s).
    { right. right. repeat split; eauto. }
    assert (Hopen : phase s <> Finished ReturnedWs -> close_called (ws s) = false).
    { intros Hne. destruct (close_called (ws s)); [|reflexivity].
      destruct (Hne (Hc eq_refl)). }
    unfold session_step.
    destruct (phase s) eqn:Hph; [| | |contradiction|destruct ev; exact Hsame].
    + specialize (Hopen ltac:(discriminate)).
      destruct ev as [[e|]| |err|lev|lev]; try exact Hsame.
      * right. right. repeat split; cbn; auto; try discriminate.
        rewrite Hopen. discriminate.
      * destruct (ensure_whisper_server
                    (logger L_INFO "New WebSocket connection established" w))
          as [w2 [|e|n]]; right; right;
          [now apply proxy_websocket_unconnected|..];
          repeat split; cbn; auto; try discriminate.
        rewrite Hopen. discriminate.
    + specialize (Hopen ltac:(discriminate)).
      destruct ev as [err| |err|lev|lev]; try exact Hsame.
      right. right. now apply proxy_websocket_unconnected.
    + destruct ev as [err| |[e|]|lev|lev]; try exact Hsame.
      * right. right. repeat split; cbn; auto; discriminate.
      * left. repeat split; cbn; try discriminate; try reflexivity.
        -- destruct (close_called (ws s)); [|reflexivity].
           specialize (Hc eq_refl). discriminate.
        -- exists fresh_conn. split; reflexivity.
Qed.

Lemma new_session_ok : session_ok new_session.
Proof. right. right. repeat split; cbn; discriminate. Qed.

Lemma session_run_ok evs : forall w s,
  session_ok s -> session_ok (snd (session_run evs w s)).
Proof.
  induction evs as [|ev evs IH]; intros w s Hs; [exact Hs|].
  unfold session_run. cbn [fold_left fst snd].
  pose proof (session_step_ok ev w s Hs) as H.
  destruct (session_step ev w s) as [w1 s1]. apply IH, H.
Qed.

(** C9: in [client_to_server] a message whose type is neither [TEXT],
    [BINARY] nor [ERROR] changes nothing (nothing is sent, nothing logged)
    and the loop goes on; the [break] is taken for an [ERROR] message and
    for no other; the only other way a message ends the loop is the
    exception of a forward that fails.  The same holds of the session the
    loop runs in: it is left exactly as it was. *)
Theorem other_message_types_are_dropped
  (m : WSMessage) (err : option Exception) (w : World) (client_ws srv : Conn) :
  let r := client_to_server (Yield m err) w client_ws srv in
  (type m <> TEXT -> type m <> BINARY -> type m <> ERROR ->
     r = (w, srv, Running) /\
     forall s, phase s = Relaying -> c2s s = Running -> server_ws s = Some srv ->
       session_step (FromClient (Yield m err)) w s = (w, s)) /\
  (snd r = Exited Broke <-> type m = ERROR) /\
  (forall x, snd r = Exited x -> type m <> ERROR ->
     exists e, send (data m) err srv = inr e /\ x = Failed e /\
               (type m = TEXT \/ type m = BINARY)).
Proof.
  destruct m as [ty d]. cbn. split; [|split].
  - intros H1 H2 H3. split.
    + destruct ty; try reflexivity; contradiction.
    + intros s Hp Hl Hsrv. unfold session_step. rewrite Hp, Hl, Hsrv.
      assert (receive_client (Yield (mkMsg ty d) err) (ws s) = ws s) as ->.
      { destruct ty; try reflexivity. contradiction. }
      assert (client_to_server (Yield (mkMsg ty d) err) w (ws s) srv = (w, srv, Running)) as ->.
      { destruct ty; try reflexivity; contradiction. }
      unfold gather. cbn. destruct s; cbn in *. congruence.
  - destruct ty; cbn; try (split; [discriminate|discriminate || reflexivity]);
      try (split; reflexivity);
      destruct (send d err srv); cbn; split; discriminate.
  - intros x Hx Hne.
    destruct ty; cbn in Hx; try discriminate; try contradiction;
      destruct (send d err srv) as [c|e]; cbn in Hx; try discriminate;
      injection Hx as <-; exists e; auto.
Qed.

Lemma other_message_types_are_dropped_witness :
  let m := mkMsg PING (VBytes []) in
  let w := init 9090 "/usr/bin/python3" None 0%float in
  type m <> TEXT /\ type m <> BINARY /\ type m <> ERROR /\
  client_to_server (Yield m None) w fresh_conn fresh_conn = (w, fresh_conn, Running).
Proof.
  repeat (split; [discriminate|]).
  apply (other_message_types_are_dropped (mkMsg PING (VBytes [])) None
           (init 9090 "/usr/bin/python3" None 0%float) fresh_conn fresh_conn);
    discriminate.
Defined.

(** One arrival while both loops run: the frame is appended to what was
    sent on the opposite connection, the other connection is untouched. *)
Lemma arrival_step a w s srv :
  phase s = Relaying -> c2s s = Running -> s2c s = Running -> server_ws s = Some srv ->
  exists w',
    session_step (arrives a) w s =
      (w', match a with
           | FromExternal f => mkSession Relaying (ws s) (Some (push f srv)) Running Running
           | FromInternal f => mkSession Relaying (push f (ws s)) (Some srv) Running Running
           end).
Proof.
  intros Hp H1 H2 Hsrv. unfold session_step.
  destruct a as [[t|b]|[t|b]]; cbn; rewrite Hp, ?H1, ?H2, Hsrv; cbn;
    unfold gather; cbn; rewrite ?H1, ?H2; cbn; eauto.
Qed.

(** C2: while both loops run and the forwards go through, the frames sent
    on the internal connection are the data frames that arrived from the
    external peer, in their order, each with its kind and payload, and the
    frames sent on the external connection are those that arrived from the
    backend, whatever the interleaving of the two directions. *)
Theorem relay_preserves_order_and_kind (arr : list Arrival) :
  forall (w : World) (s : Session) (srv : Conn),
  phase s = Relaying -> c2s s = Running -> s2c s = Running -> server_ws s = Some srv ->
  let s' := snd (session_run (map arrives arr) w s) in
  option_map sent (server_ws s') = Some (sent srv ++ externals arr) /\
  sent (ws s') = sent (ws s) ++ internals arr /\
  phase s' = Relaying /\ c2s s' = Running /\ s2c s' = Running.
Proof.
  induction arr as [|a arr IH]; intros w s srv Hp H1 H2 Hsrv.
  - cbn. rewrite Hsrv, !app_nil_r. cbn. auto.
  - destruct (arrival_step a w s srv Hp H1 H2 Hsrv) as [w' Hstep].
    unfold session_run. cbn [map fold_left fst snd]. rewrite Hstep.
    destruct a as [f|f]; cbn [fst snd externals internals].
    + specialize (IH w' (mkSession Relaying (ws s) (Some (push f srv)) Running Running)
                     (push f srv) eq_refl eq_refl eq_refl eq_refl).
      unfold session_run in IH. cbn [ws sent push] in IH.
      rewrite <- app_assoc in IH. exact IH.
    + specialize (IH w' (mkSession Relaying (push f (ws s)) (Some srv) Running Running)
                     srv eq_refl eq_refl eq_refl eq_refl).
      unfold session_run in IH. cbn [ws sent push] in IH.
      rewrite <- app_assoc in IH. exact IH.
Qed.

Lemma relay_preserves_order_and_kind_witness :
  let arr :=
    [ FromExternal (TextFrame "{}"); FromExternal (BinaryFrame [Byte.x00; Byte.xff]);
      FromInternal (TextFrame "hello"); FromExternal (BinaryFrame [Byte.x7f]);
      FromInternal (BinaryFrame []) ] in
  let w := init 9090 "/usr/bin/python3" None 0%float in
  let s := mkSession Relaying fresh_conn (Some fresh_conn) Running Running in
  let s' := snd (session_run (map arrives arr) w s) in
  option_map sent (server_ws s') = Some (sent fresh_conn ++ externals arr) /\
  sent (ws s') = sent (ws s) ++ internals arr /\
  phase s' = Relaying /\ c2s s' = Running /\ s2c s' = Running.
Proof.
  apply (relay_preserves_order_and_kind
           [ FromExternal (TextFrame "{}"); FromExternal (BinaryFrame [Byte.x00; Byte.xff]);
             FromInternal (TextFrame "hello"); FromExternal (BinaryFrame [Byte.x7f]);
             FromInternal (BinaryFrame []) ]
           (init 9090 "/usr/bin/python3" None 0%float)
           (mkSession Relaying fresh_conn (Some fresh_conn) Running Running)
           fresh_conn); reflexivity.
Defined.

Lemma gather_loops w s :
  c2s (snd (gather w s)) = c2s s /\ s2c (snd (gather w s)) = s2c s.
Proof. unfold gather. destruct (exited (c2s s) && exited (s2c s)); split; reflexivity. Qed.

Lemma proxy_websocket_loops w s :
  c2s (snd (proxy_websocket w s)) = c2s s /\ s2c (snd (proxy_websocket w s)) = s2c s.
Proof. unfold proxy_websocket. destruct (import_websockets w); split; reflexivity. Qed.

(** A turn of one loop leaves the state of the other loop alone. *)
Lemma other_loop_untouched ev w s :
  let s' := snd (session_step ev w s) in
  (c2s s = Running -> exited (c2s s') = true -> s2c s' = s2c s) /\
  (s2c s = Running -> exited (s2c s') = true -> c2s s' = c2s s).
Proof.
  unfold session_step.
  destruct (phase s) eqn:Hp, ev as [[e|]| |[e|]|lev|lev]; cbn;
    try (split; intros H1 H2; congruence).
  - destruct (ensure_whisper_server
                (logger L_INFO "New WebSocket connection established" w))
      as [w2 [|e|n]]; cbn;
      [destruct (proxy_websocket_loops w2 s) as [-> ->]|..];
      split; intros H1 H2; congruence.
  - destruct (proxy_websocket_loops (ensure_whisper_server_resume w) s) as [-> ->].
    split; intros H1 H2; congruence.
  - destruct (c2s s) eqn:H1; try (split; intros; cbn in *; congruence).
    destruct (server_ws s) as [srv|]; [|split; intros; cbn in *; congruence].
    destruct (client_to_server lev w (receive_client lev (ws s)) srv) as [[w1 srv1] l].
    destruct (gather_loops w1 (mkSession Relaying (receive_client lev (ws s))
                                         (Some srv1) l (s2c s))) as [Ha Hb].
    cbn in Ha, Hb. rewrite Ha, Hb.
    split; intros Hx Hy; try reflexivity; rewrite Hx in Hy; discriminate.
  - destruct (s2c s) eqn:H1; try (split; intros; cbn in *; congruence).
    destruct (server_ws s) as [srv|]; [|split; intros; cbn in *; congruence].
    destruct (server_to_client lev w (ws s)) as [[w1 cli] l].
    destruct (gather_loops w1 (mkSession Relaying cli (Some (receive_server lev srv))
                                         (c2s s) l)) as [Ha Hb].
    cbn in Ha, Hb. rewrite Ha, Hb.
    split; intros Hx Hy; try reflexivity; rewrite Hx in Hy; discriminate.
Qed.

Lemma relaying_of_phase s : session_ok s -> phase s = Relaying -> relaying s.
Proof.
  intros [H|[H|H]] Hp; [exact H| |].
  - destruct H as [H _]. congruence.
  - destruct H as (_ & _ & _ & H & _). contradiction.
Qed.

Lemma step_sessions_ok ev sys :
  Forall session_ok (sessions sys) -> Forall session_ok (sessions (step ev sys)).
Proof.
  intros H. destruct ev as [req|i sev|h rc|err|t]; cbn; try exact H.
  - unfold serve. destruct (resolve req) as [[]|]; cbn; try exact H.
    unfold websocket_handler. destruct (is_upgrade req); cbn; [|exact H].
    apply Forall_app. split; [exact H|].
    constructor; [exact new_session_ok|constructor].
  - destruct (sessions sys !! i) as [s|] eqn:Hi; [|exact H].
    pose proof (session_step_ok sev (world sys) s) as Hs.
    destruct (session_step sev (world sys) s) as [w1 s1]. cbn in *.
    apply Forall_insert; [exact H|]. apply Hs.
    rewrite Forall_lookup in H. exact (H _ _ Hi).
Qed.

Lemma run_sessions_ok evs : forall sys,
  Forall session_ok (sessions sys) -> Forall session_ok (sessions (run evs sys)).
Proof.
  induction evs as [|ev evs IH]; intros sys H; [exact H|].
  cbn. apply IH, step_sessions_ok, H.
Qed.

(** What an event addressed to session [i] does to it. *)
Lemma step_resume_lookup i ev sys s :
  sessions sys !! i = Some s ->
  sessions (step (Resume i ev) sys) !! i = Some (snd (session_step ev (world sys) s)).
Proof.
  intros Hi. cbn. rewrite Hi.
  destruct (session_step ev (world sys) s) as [w1 s1]. cbn.
  apply list_lookup_insert_eq. eapply lookup_lt_Some, Hi.
Qed.

(** Every other event leaves session [i] alone. *)
Lemma other_events_keep_session e i sys s :
  sessions sys !! i = Some s ->
  (forall ev, e <> Resume i ev) ->
  sessions (step e sys) !! i = Some s.
Proof.
  intros Hi Hne. destruct e as [req|j sev|h rc|err|t]; cbn; try exact Hi.
  - unfold serve. destruct (resolve req) as [[]|]; cbn; try exact Hi.
    unfold websocket_handler. destruct (is_upgrade req); cbn; [|exact Hi].
    apply lookup_app_l_Some, Hi.
  - destruct (sessions sys !! j) as [s0|] eqn:Hj; [|exact Hi].
    destruct (session_step sev (world sys) s0) as [w1 s1]. cbn.
    rewrite list_lookup_insert_ne; [exact Hi|].
    intros ->. exact (Hne sev eq_refl).
Qed.

(** C7: at every point of every run of the service and for every session,
    the event that ends one of its two loops leaves the other loop as it
    was, and no event addressed elsewhere touches the session (a loop is
    never cancelled); while the handler is in the relay at least one loop
    is still running; and the step after which the handler has returned is
    the step after which both loops are over. *)
Theorem relay_waits_for_both_loops
  (p : Z) (exe : string) (imp : option Exception) (t : float)
  (evs : list Event) (i : nat) (ev : SessionEvent) (s : Session) :
  let sys := run evs (boot p exe imp t) in
  sessions sys !! i = Some s ->
  exists s',
    sessions (step (Resume i ev) sys) !! i = Some s' /\
    (c2s s = Running -> exited (c2s s') = true -> s2c s' = s2c s) /\
    (s2c s = Running -> exited (s2c s') = true -> c2s s' = c2s s) /\
    (forall e, (forall ev', e <> Resume i ev') -> sessions (step e sys) !! i = Some s) /\
    (phase s = Relaying ->
       exited (c2s s) && exited (s2c s) = false /\
       (phase s' = Relaying \/ phase s' = Finished ReturnedWs) /\
       (phase s' = Finished ReturnedWs <-> exited (c2s s') && exited (s2c s') = true)).
Proof.
  intros sys Hi.
  exists (snd (session_step ev (world sys) s)).
  split; [apply step_resume_lookup, Hi|].
  destruct (other_loop_untouched ev (world sys) s) as [Ha Hb].
  split; [exact Ha|]. split; [exact Hb|].
  split; [intros e He; apply other_events_keep_session; assumption|].
  intros Hp.
  assert (Hok : session_ok s).
  { pose proof (run_sessions_ok evs (boot p exe imp t) (Forall_nil_2 _)) as H.
    rewrite Forall_lookup in H. exact (H _ _ Hi). }
  pose proof (relaying_of_phase _ Hok Hp) as Hr.
  split; [apply Hr|].
  destruct (relaying_step ev (world sys) s Hr) as [H|H].
  - destruct H as (Hp' & _ & _ & Hex & _). split; [left; exact Hp'|].
    rewrite Hp', Hex. split; discriminate.
  - destruct H as (Hp' & Hex & _). split; [right; exact Hp'|].
    rewrite Hp', Hex. split; reflexivity.
Qed.

Lemma relay_waits_for_both_loops_witness :
  let sys := run (Arrive upgrade_request :: map (Resume 0) (open_relay ++ [FromServer Stop]))
                 (boot 9090 "/usr/bin/python3" None 0%float) in
  let s := mkSession Relaying fresh_conn (Some (peer_closed fresh_conn))
                     Running (Exited Exhausted) in
  sessions sys !! 0 = Some s /\
  exists s',
    sessions (step (Resume 0 (FromClient (Throw "timeout"))) sys) !! 0 = Some s' /\
    (c2s s = Running -> exited (c2s s') = true -> s2c s' = s2c s) /\
    (s2c s = Running -> exited (s2c s') = true -> c2s s' = c2s s) /\
    (forall e, (forall ev', e <> Resume 0 ev') -> sessions (step e sys) !! 0 = Some s) /\
    (phase s = Relaying ->
       exited (c2s s) && exited (s2c s) = false /\
       (phase s' = Relaying \/ phase s' = Finished ReturnedWs) /\
       (phase s' = Finished ReturnedWs <-> exited (c2s s') && exited (s2c s') = true)).
Proof.
  split; [reflexivity|].
  apply (relay_waits_for_both_loops 9090 "/usr/bin/python3" None 0%float
           (Arrive upgrade_request :: map (Resume 0) (open_relay ++ [FromServer Stop]))
           0 (FromClient (Throw "timeout"))).
  reflexivity.
Defined.

(** C3, as the code has it: in every run of the service and for every
    session, both connections are closed in the same teardown, which comes
    once both loops are over: the internal connection is closed on the way
    out of the [async with] block and the external one when the handler
    has returned [ws].  As long as one loop runs, the handler stays in the
    relay and neither connection has been closed from this side, so a leg
    whose peer is still there stays open after the other leg has closed,
    for as long as that peer likes. *)
Theorem teardown_waits_for_both_loops
  (p : Z) (exe : string) (imp : option Exception) (t : float)
  (evs : list Event) (i : nat) (s : Session) :
  sessions (run evs (boot p exe imp t)) !! i = Some s ->
  (phase s = Relaying ->
     exited (c2s s) && exited (s2c s) = false /\
     close_called (finish_response s) = false /\
     exists c, server_ws s = Some c /\ close_called c = false) /\
  (forall c, server_ws s = Some c -> phase s <> Relaying ->
     phase s = Finished ReturnedWs /\
     exited (c2s s) && exited (s2c s) = true /\
     close_called c = true /\
     is_closed (finish_response s) = true) /\
  (phase s = Finished ReturnedWs ->
     is_closed (finish_response s) = true /\
     forall c, server_ws s = Some c -> close_called c = true).
Proof.
  intros Hi.
  assert (Hok : session_ok s).
  { pose proof (run_sessions_ok evs (boot p exe imp t) (Forall_nil_2 _)) as H.
    rewrite Forall_lookup in H. exact (H _ _ Hi). }
  assert (Hc : forall c, server_ws s = Some c -> phase s <> Relaying ->
     phase s = Finished ReturnedWs /\
     exited (c2s s) && exited (s2c s) = true /\
     close_called c = true /\
     is_closed (finish_response s) = true).
  { intros c Hc Hp. destruct Hok as [H|[H|H]].
    - destruct H as [H _]. contradiction.
    - destruct H as (H1 & H2 & H3 & c' & H4 & H5). rewrite Hc in H4. injection H4 as <-.
      split; [exact H1|]. split; [exact H2|].
      split; [exact H5|].
      unfold finish_response, is_closed. rewrite H1. apply orb_true_r.
    - destruct H as [H _]. congruence. }
  split; [|split; [exact Hc|]].
  - intros Hp. destruct (relaying_of_phase _ Hok Hp) as (_ & _ & _ & H1 & H2 & H3).
    unfold finish_response. rewrite Hp. auto.
  - intros Hp. split.
    + unfold finish_response, is_closed. rewrite Hp. apply orb_true_r.
    + intros c Hs. apply (Hc c Hs). rewrite Hp. discriminate.
Qed.

Lemma teardown_waits_for_both_loops_witness :
  let evs :=
    Arrive upgrade_request ::
    map (Resume 0) (open_relay ++ [FromClient Stop; FromServer (Throw "reset")]) in
  let s := mkSession (Finished ReturnedWs) (peer_closed fresh_conn) (Some (close fresh_conn))
                     (Exited Exhausted) (Exited (Failed "reset")) in
  sessions (run evs (boot 9090 "/usr/bin/python3" None 0%float)) !! 0 = Some s /\
  (forall c, server_ws s = Some c -> phase s <> Relaying ->
     phase s = Finished ReturnedWs /\
     exited (c2s s) && exited (s2c s) = true /\
     close_called c = true /\
     is_closed (finish_response s) = true).
Proof.
  split; [reflexivity|].
  apply (teardown_waits_for_both_loops 9090 "/usr/bin/python3" None 0%float
           (Arrive upgrade_request ::
            map (Resume 0) (open_relay ++ [FromClient Stop; FromServer (Throw "reset")]))
           0).
  reflexivity.
Defined.

(** Once the backend has closed the internal connection and
    [server_to_client] is over, only the external peer can move the
    session: every other event of the service leaves it where it is. *)
Lemma stuck_until_client_moves i more : forall sys s,
  sessions sys !! i = Some s ->
  phase s = Relaying -> c2s s = Running -> exited (s2c s) = true ->
  forallb (not_from_client_of i) more = true ->
  sessions (run more sys) !! i = Some s.
Proof.
  induction more as [|e more IH]; intros sys s Hi Hp H1 H2 Hm; [exact Hi|].
  cbn in Hm. apply andb_true_iff in Hm as [He Hm].
  cbn. apply IH; try assumption.
  destruct e as [req|j sev|h rc|err|t];
    try (apply other_events_keep_session; [exact Hi|discriminate]).
  destruct (Nat.eq_dec j i) as [->|Hne].
  - rewrite (step_resume_lookup _ _ _ _ Hi). f_equal.
    unfold session_step. rewrite Hp.
    destruct sev as [err| |err|lev|lev]; try reflexivity.
    + cbn in He. rewrite Nat.eqb_refl in He. discriminate.
    + destruct (s2c s); try reflexivity. discriminate.
  - apply other_events_keep_session; [exact Hi|]. intros ev [= ? _]. contradiction.
Qed.

(** C3, as stated, fails: the backend closes the internal connection in
    the middle of a session; the internal leg is closed, the external
    connection is not, the handler is still in the relay, and no event
    other than one from the external peer of that session changes that. *)
Lemma internal_drop_leaves_external_open :
  let evs := Arrive upgrade_request :: map (Resume 0) (open_relay ++ [FromServer Stop]) in
  let boot0 := boot 9090 "/usr/bin/python3" None 0%float in
  exists s,
    sessions (run evs boot0) !! 0 = Some s /\
    phase s = Relaying /\
    option_map is_closed (server_ws s) = Some true /\
    is_closed (ws s) = false /\
    is_closed (finish_response s) = false /\
    forall more, forallb (not_from_client_of 0) more = true ->
      sessions (run (evs ++ more) boot0) !! 0 = Some s.
Proof.
  cbv zeta. eexists. split; [reflexivity|].
  split; [reflexivity|]. split; [reflexivity|]. split; [reflexivity|].
  split; [reflexivity|].
  intros more Hm. unfold run. rewrite fold_left_app.
  apply (stuck_until_client_moves 0 more); [reflexivity..|exact Hm].
Qed.

(** ** Errors at the session boundary *)

Lemma gather_ws w s : close_called (ws (snd (gather w s))) = close_called (ws s).
Proof. unfold gather. destruct (exited (c2s s) && exited (s2c s)); reflexivity. Qed.

(** C6: the handler returns with the external connection open when the
    connect to the backend fails.  The backend is started and given its
    three seconds, and then refuses the connection: the exception is
    caught and logged by [proxy_websocket] (line 132), so the [except]
    clause of the handler, whose line 74 closes the connection, is not
    reached, and the handler returns [ws] as it is; only the framework
    closes it afterwards.  On the sibling path, where [Popen] fails, the
    handler does log and close before it returns. *)
Lemma connect_failure_leaves_external_open :
  let boot0 := boot 9090 "/usr/bin/python3" None 0%float in
  let sys :=
    run (Arrive upgrade_request ::
         map (Resume 0) [Prepared None; Woke; Connected (Some "Connect call failed")])
        boot0 in
  let sys' :=
    run [ForkAnswer (Some "[Errno 12] Cannot allocate memory");
         Arrive upgrade_request; Resume 0 (Prepared None)]
        boot0 in
  (exists s,
     sessions sys !! 0 = Some s /\
     phase s = Finished ReturnedWs /\
     close_called (ws s) = false /\
     is_closed (ws s) = false /\
     is_closed (finish_response s) = true /\
     log (world sys) =
       [ (L_INFO, "New WebSocket connection established");
         (L_INFO, "Starting WhisperLive backend server...");
         (L_INFO, "WhisperLive backend server started");
         (L_ERROR, "Proxy error: Connect call failed");
         (L_INFO, "WebSocket connection closed") ]) /\
  (exists s',
     sessions sys' !! 0 = Some s' /\
     phase s' = Finished ReturnedWs /\
     close_called (ws s') = true /\
     log (world sys') =
       [ (L_INFO, "New WebSocket connection established");
         (L_INFO, "Starting WhisperLive backend server...");
         (L_ERROR, "WebSocket error: [Errno 12] Cannot allocate memory");
         (L_INFO, "WebSocket connection closed") ]).
Proof. cbv zeta. split; eexists; repeat split. Qed.

(** ** Sample runs *)

Example is_upgrade_examples :
  is_upgrade upgrade_request = true /\
  is_upgrade (mkRequest "GET" "/" [("UPGRADE", "WebSocket")]) = true /\
  is_upgrade (mkRequest "GET" "/" []) = false /\
  is_upgrade (mkRequest "GET" "/" [("Upgrade", "h2c")]) = false /\
  is_upgrade
    (mkRequest "GET" "/"
       [("Upgrade", "WEBSOC" +:+ String "226" (String "132" (String "170" "ET")))]) = true.
Proof. repeat split. Qed.

(** The backend is started for the first client, which then sends one
    binary frame of 320 bytes: the backend gets one binary frame with the
    same 320 bytes. *)
Example first_client_sends_audio :
  let audio := BinaryFrame (List.repeat Byte.x2a 320) in
  let evs :=
    Arrive upgrade_request ::
    map (Resume 0) (open_relay ++ [arrives (FromExternal audio)]) in
  let sys := run evs (boot 9090 "/usr/bin/python3" None 0%float) in
  option_map (fun s => option_map sent (server_ws s)) (sessions sys !! 0) =
    Some (Some [audio]) /\
  length (procs (world sys)) = 1.
Proof. split; reflexivity. Qed.

(** A second client while the backend runs: no new process, no sleep. *)
Example second_client_skips_the_sleep :
  let evs :=
    [ Arrive upgrade_request; Resume 0 (Prepared None); Resume 0 Woke;
      Arrive upgrade_request; Resume 1 (Prepared None) ] in
  let sys := run evs (boot 9090 "/usr/bin/python3" None 0%float) in
  map phase (sessions sys) = [Connecting; Connecting] /\
  length (procs (world sys)) = 1.
Proof. split; reflexivity. Qed.

End WrapperProofs.

(** * Further properties of the wrapper *)

Module WrapperExtras.
Import Py Http Wrapper WrapperProofs.

(** ** The backend process *)

(** X1: [ensure_whisper_server] is idempotent: after a call that did not
    raise, the tracked process runs, and a second call returns at once and
    changes nothing. *)
Theorem ensure_whisper_server_idempotent (w : World) :
  fork_error w = None ->
  let w1 := fst (ensure_whisper_server w) in
  not_running w1 = false /\
  ensure_whisper_server w1 = (w1, Returned).
Proof.
  intros Hf w1.
  assert (H : not_running w1 = false).
  { subst w1. unfold ensure_whisper_server, subprocess_Popen.
    destruct (not_running w) eqn:Hn; [|exact Hn].
    cbn. rewrite Hf. cbn. unfold not_running, poll. cbn.
    rewrite list_lookup_middle by reflexivity. reflexivity. }
  split; [exact H|].
  unfold ensure_whisper_server. rewrite H. reflexivity.
Qed.

Lemma ensure_whisper_server_idempotent_witness :
  let w := init 9090 "/usr/bin/python3" None 0%float in
  let w1 := fst (ensure_whisper_server w) in
  fork_error w = None /\ length (procs w1) = 1 /\
  not_running w1 = false /\ ensure_whisper_server w1 = (w1, Returned).
Proof.
  split; [reflexivity|]. split; [reflexivity|].
  apply (ensure_whisper_server_idempotent (init 9090 "/usr/bin/python3" None 0%float)).
  reflexivity.
Defined.

(** X2: the process table changes its length in one place only: an event
    that resumes a handler waiting in [ws.prepare], the upgrade accepted,
    while nothing runs and [Popen] works; the table then gets the backend
    as its last entry and that entry is tracked.  No health check, plain
    GET, relay traffic, process exit or other resumption starts or removes
    a process. *)
Theorem only_an_accepted_upgrade_spawns (ev : Event) (sys : System) :
  length (procs (world (step ev sys))) <> length (procs (world sys)) ->
  exists i s,
    ev = Resume i (Prepared None) /\
    sessions sys !! i = Some s /\ phase s = Preparing /\
    not_running (world sys) = true /\ fork_error (world sys) = None /\
    procs (world (step ev sys)) =
      procs (world sys) ++ [mkPopen (backend_argv (world sys)) None] /\
    whisper_server (world (step ev sys)) = Some (length (procs (world sys))).
Proof.
  intros Hlen. destruct ev as [req|i sev|h rc|err|t].
  - exfalso. apply Hlen. cbn. unfold serve.
    destruct (resolve req) as [[]|]; cbn; try reflexivity.
    unfold websocket_handler. destruct (is_upgrade req); reflexivity.
  - cbn in *. destruct (sessions sys !! i) as [s|] eqn:Hi; [|contradiction].
    pose proof (session_step_backend sev (world sys) s) as H.
    destruct (session_step sev (world sys) s) as [w1 s1]. cbn in *.
    destruct H as [H|(Hp & -> & Hn & Hf & H)]; unfold backend_of in H;
      injection H as H1 H2 H3.
    + rewrite H2 in Hlen. contradiction.
    + exists i, s. repeat split; assumption.
  - exfalso. apply Hlen. cbn. unfold exit_process.
    destruct (procs (world sys) !! h) as [q|]; [|reflexivity].
    destruct (returncode q); [reflexivity|apply length_insert].
  - contradiction.
  - contradiction.
Qed.

Lemma only_an_accepted_upgrade_spawns_witness :
  let sys := step (Arrive upgrade_request) (boot 9090 "/usr/bin/python3" None 0%float) in
  let ev := Resume 0 (Prepared None) in
  length (procs (world (step ev sys))) <> length (procs (world sys)) /\
  exists i s,
    ev = Resume i (Prepared None) /\
    sessions sys !! i = Some s /\ phase s = Preparing /\
    not_running (world sys) = true /\ fork_error (world sys) = None /\
    procs (world (step ev sys)) =
      procs (world sys) ++ [mkPopen (backend_argv (world sys)) None] /\
    whisper_server (world (step ev sys)) = Some (length (procs (world sys))).
Proof.
  split; [discriminate|].
  apply (only_an_accepted_upgrade_spawns (Resume 0 (Prepared None))
           (step (Arrive upgrade_request) (boot 9090 "/usr/bin/python3" None 0%float))).
  discriminate.
Defined.

(** X3: in every state the service reaches, the tracked process is the
    one started last: nothing is tracked exactly when nothing was ever
    started, the tracked handle is the last index of the process table,
    and every process before it has exited. *)
Theorem tracked_process_is_the_last_started
  (p : Z) (exe : string) (imp : option Exception) (t : float) (evs : list Event) :
  let w := world (run evs (boot p exe imp t)) in
  (whisper_server w = None <-> procs w = []) /\
  (forall h, whisper_server w = Some h ->
     S h = length (procs w) /\
     forall k q, k < h -> procs w !! k = Some q -> returncode q <> None).
Proof.
  intros w.
  pose proof (run_tracked_last evs _ (boot_tracked_last p exe imp t)) as Ht.
  fold w in Ht. unfold tracked_last in Ht.
  destruct (whisper_server w) as [h|].
  - destruct Ht as (old & q & Hq & -> & Hold). split.
    + split; [discriminate|]. rewrite Hq. intros H. destruct old; discriminate.
    + intros h [= <-]. split.
      * rewrite Hq, length_app. cbn. lia.
      * intros k q' Hk Hlk. rewrite Hq, lookup_app_l in Hlk by exact Hk.
        rewrite Forall_lookup in Hold. specialize (Hold _ _ Hlk).
        unfold running in Hold. destruct (returncode q'); [discriminate|discriminate].
  - split; [split; auto|discriminate].
Qed.

(** ** What a run keeps *)

Lemma grows_refl w : grows w w.
Proof. split; [reflexivity|]. exists []. symmetry. apply app_nil_r. Qed.

Lemma grows_trans w1 w2 w3 : grows w1 w2 -> grows w2 w3 -> grows w1 w3.
Proof.
  intros [H1 [l1 L1]] [H2 [l2 L2]]. split; [congruence|].
  exists (l1 ++ l2). rewrite L2, L1. symmetry. apply app_assoc.
Qed.

Lemma grows_logger lv m w : grows w (logger lv m w).
Proof. split; [reflexivity|]. eexists. reflexivity. Qed.

Lemma ensure_whisper_server_grows w : grows w (fst (ensure_whisper_server w)).
Proof.
  unfold ensure_whisper_server, subprocess_Popen.
  destruct (not_running w); [|apply grows_refl].
  cbn. destruct (fork_error w); cbn; split; try reflexivity; eexists; reflexivity.
Qed.

Lemma handler_finally_grows w s : grows w (fst (handler_finally w s)).
Proof. apply grows_logger. Qed.

Lemma handler_except_grows e w s : grows w (fst (handler_except e w s)).
Proof.
  unfold handler_except, handler_finally. cbn.
  eapply grows_trans; apply grows_logger.
Qed.

Lemma proxy_websocket_grows w s : grows w (fst (proxy_websocket w s)).
Proof.
  unfold proxy_websocket.
  destruct (import_websockets w); [apply handler_except_grows|apply grows_refl].
Qed.

Lemma gather_grows w s : grows w (fst (gather w s)).
Proof.
  unfold gather.
  destruct (exited (c2s s) && exited (s2c s)); [apply handler_finally_grows|apply grows_refl].
Qed.

Lemma client_to_server_grows lev w cli srv :
  grows w (fst (fst (client_to_server lev w cli srv))).
Proof.
  destruct lev as [[ty d] err| |e]; cbn;
    [|apply grows_refl|apply grows_logger].
  destruct ty; cbn; try apply grows_refl; try apply grows_logger;
    destruct (send d err srv); cbn; (apply grows_refl || apply grows_logger).
Qed.

Lemma server_to_client_grows lev w cli :
  grows w (fst (fst (server_to_client lev w cli))).
Proof.
  destruct lev as [m err| |e]; cbn; [|apply grows_refl|apply grows_logger].
  destruct (isinstance_str m).
  - destruct (send_str m err cli); cbn; (apply grows_refl || apply grows_logger).
  - destruct (isinstance_bytes m); [|apply grows_refl].
    destruct (send_bytes m err cli); cbn; (apply grows_refl || apply grows_logger).
Qed.

Lemma session_step_grows ev w s : grows w (fst (session_step ev w s)).
Proof.
  unfold session_step.
  destruct (phase s), ev as [[e|]| |[e|]|lev|lev]; cbn; try apply grows_refl.
  - eapply grows_trans; [apply grows_logger|].
    pose proof (ensure_whisper_server_grows
                  (logger L_INFO "New WebSocket connection established" w)) as H.
    destruct (ensure_whisper_server
                (logger L_INFO "New WebSocket connection established" w))
      as [w2 [|e|n]]; cbn in H.
    + eapply grows_trans; [exact H|apply proxy_websocket_grows].
    + eapply grows_trans; [exact H|apply handler_except_grows].
    + exact H.
  - eapply grows_trans; [apply grows_logger|apply proxy_websocket_grows].
  - eapply grows_trans; apply grows_logger.
  - destruct (c2s s); try apply grows_refl.
    destruct (server_ws s) as [srv|]; [|apply grows_refl].
    pose proof (client_to_server_grows lev w (receive_client lev (ws s)) srv) as H.
    destruct (client_to_server lev w (receive_client lev (ws s)) srv) as [[w1 srv1] l].
    eapply grows_trans; [exact H|apply gather_grows].
  - destruct (s2c s); try apply grows_refl.
    destruct (server_ws s) as [srv|]; [|apply grows_refl].
    pose proof (server_to_client_grows lev w (ws s)) as H.
    destruct (server_to_client lev w (ws s)) as [[w1 cli] l].
    eapply grows_trans; [exact H|apply gather_grows].
Qed.

Lemma step_grows ev sys : grows (world sys) (world (step ev sys)).
Proof.
  destruct ev as [req|i sev|h rc|err|t]; cbn;
    try (split; [reflexivity|exists []; symmetry; apply app_nil_r]).
  - unfold serve. destruct (resolve req) as [[]|]; cbn; try apply grows_refl.
    + apply grows_logger.
    + unfold websocket_handler. destruct (is_upgrade req); apply grows_refl.
  - destruct (sessions sys !! i) as [s|]; [|apply grows_refl].
    pose proof (session_step_grows sev (world sys) s) as H.
    destruct (session_step sev (world sys) s) as [w1 s1]. exact H.
Qed.

Lemma run_grows evs : forall sys, grows (world sys) (world (run evs sys)).
Proof.
  induction evs as [|ev evs IH]; intros sys; [apply grows_refl|].
  cbn. eapply grows_trans; [apply step_grows|apply IH].
Qed.

(** X4: whatever happens while the service runs, its configuration stays
    what it was at the start: the port, the interpreter the backend is
    started with, hence the argument vector of a future backend and the
    service-info body of the plain GET. *)
Theorem configuration_never_changes (evs : list Event) (sys : System) :
  let w := world sys in
  let w' := world (run evs sys) in
  port w' = port w /\
  sys_executable w' = sys_executable w /\
  backend_argv w' = backend_argv w /\
  service_info w' = service_info w.
Proof.
  intros w w'. destruct (run_grows evs sys) as [H _]. fold w w' in H.
  unfold config_of in H. injection H as H1 H2 H3.
  unfold backend_argv, service_info. rewrite H1, H2. auto.
Qed.

Lemma step_all_backend ev sys :
  Forall (fun q => args q = backend_argv (world sys)) (procs (world sys)) ->
  Forall (fun q => args q = backend_argv (world (step ev sys))) (procs (world (step ev sys))).
Proof.
  intros H.
  assert (Ha : backend_argv (world (step ev sys)) = backend_argv (world sys)).
  { destruct (step_grows ev sys) as [Hc _]. unfold config_of in Hc.
    injection Hc as _ Hc _. unfold backend_argv. now rewrite Hc. }
  rewrite Ha.
  destruct (step_backend ev sys) as
    [(_ & _ & Hp & _)|[(_ & _ & _ & Hb)|(h & rc & _ & _ & Hp & _)]].
  - now rewrite Hp.
  - unfold backend_of in Hb. injection Hb as _ Hp _. rewrite Hp.
    apply Forall_app. split; [exact H|]. constructor; [reflexivity|constructor].
  - rewrite Hp. unfold exit_process.
    destruct (procs (world sys) !! h) as [p0|] eqn:Hh; [|exact H].
    destruct (returncode p0); [exact H|].
    apply Forall_insert; [exact H|]. cbn.
    rewrite Forall_lookup in H. exact (H _ _ Hh).
Qed.

(** X6: the only program the service ever starts is the backend: every
    entry of the process table, at any time, was started as
    [sys.executable run_server.py --port 9091 --backend faster_whisper]. *)
Theorem every_process_is_the_backend
  (p : Z) (exe : string) (imp : option Exception) (t : float) (evs : list Event) :
  Forall (fun q => args q = [exe; "run_server.py"; "--port"; "9091";
                             "--backend"; "faster_whisper"])
         (procs (world (run evs (boot p exe imp t)))).
Proof.
  assert (G : forall sys,
             Forall (fun q => args q = backend_argv (world sys)) (procs (world sys)) ->
             Forall (fun q => args q = backend_argv (world (run evs sys)))
                    (procs (world (run evs sys)))).
  { induction evs as [|ev evs IH]; intros sys H; [exact H|].
    cbn. apply IH, step_all_backend, H. }
  specialize (G (boot p exe imp t) (Forall_nil_2 _)).
  destruct (run_grows evs (boot p exe imp t)) as [Hc _].
  unfold config_of in Hc. injection Hc as _ Hc _.
  unfold backend_argv in G. rewrite Hc in G. exact G.
Qed.

(** ** The life of a session *)

(** X8: a session only moves forward: no event takes a handler back to an
    earlier suspension point, the relay is entered from the connect and
    from nowhere else, and a handler that has finished is not moved by any
    event. *)
Theorem sessions_only_move_forward (ev : SessionEvent) (w : World) (s : Session) :
  let s' := snd (session_step ev w s) in
  rank (phase s) <= rank (phase s') /\
  (phase s' = Relaying ->
     phase s = Relaying \/ (phase s = Connecting /\ ev = Connected None)) /\
  (forall r, phase s = Finished r -> session_step ev w s = (w, s)).
Proof.
  unfold session_step.
  destruct (phase s) eqn:Hp.
  - destruct ev as [[e|]| |err|lev|lev]; cbn; rewrite ?Hp; cbn;
      try (split; [lia|split; [discriminate|discriminate]]).
    destruct (ensure_whisper_server
                (logger L_INFO "New WebSocket connection established" w))
      as [w2 [|e|n]]; unfold proxy_websocket; cbn;
      try destruct (import_websockets w2); cbn;
      (split; [lia|split; [discriminate|discriminate]]).
  - destruct ev as [err| |err|lev|lev]; cbn; rewrite ?Hp; cbn;
      try (split; [lia|split; [discriminate|discriminate]]).
    unfold proxy_websocket.
    destruct (import_websockets (ensure_whisper_server_resume w)); cbn;
      (split; [lia|split; [discriminate|discriminate]]).
  - destruct ev as [err| |[e|]|lev|lev]; cbn; rewrite ?Hp; cbn;
      try (split; [lia|split; [discriminate|discriminate]]).
    split; [lia|]. split; [auto|discriminate].
  - assert (G : forall w1 s1, phase s1 = Relaying ->
                3 <= rank (phase (snd (gather w1 s1)))).
    { intros w1 s1 H1. unfold gather.
      destruct (exited (c2s s1) && exited (s2c s1)); cbn; [lia|rewrite H1; cbn; lia]. }
    destruct ev as [err| |err|lev|lev]; cbn; rewrite ?Hp; cbn;
      try (split; [lia|split; [auto|discriminate]]).
    + destruct (c2s s); cbn; rewrite ?Hp; cbn;
        try (split; [lia|split; [auto|discriminate]]).
      destruct (server_ws s) as [srv|]; cbn; rewrite ?Hp; cbn;
        try (split; [lia|split; [auto|discriminate]]).
      destruct (client_to_server lev w (receive_client lev (ws s)) srv) as [[w1 srv1] l].
      split; [apply G; reflexivity|split; [auto|discriminate]].
    + destruct (s2c s); cbn; rewrite ?Hp; cbn;
        try (split; [lia|split; [auto|discriminate]]).
      destruct (server_ws s) as [srv|]; cbn; rewrite ?Hp; cbn;
        try (split; [lia|split; [auto|discriminate]]).
      destruct (server_to_client lev w (ws s)) as [[w1 cli] l].
      split; [apply G; reflexivity|split; [auto|discriminate]].
  - split; [|split].
    + destruct ev; cbn; rewrite Hp; cbn; lia.
    + destruct ev; cbn; rewrite Hp; discriminate.
    + intros r' _. destruct ev; reflexivity.
Qed.

Lemma finally_logs_the_close w x s :
  grows w x -> logs_the_close w (fst (handler_finally x s)).
Proof.
  intros [_ [l Hl]]. exists l. cbn. rewrite Hl. symmetry. apply app_assoc.
Qed.

Lemma except_logs_the_close e w x s :
  grows w x -> logs_the_close w (fst (handler_except e x s)).
Proof.
  intros H. unfold handler_except. apply finally_logs_the_close.
  eapply grows_trans; [exact H|apply grows_logger].
Qed.

Lemma proxy_logs_the_close w x s :
  grows w x -> (forall r, phase s <> Finished r) ->
  phase (snd (proxy_websocket x s)) = Finished ReturnedWs ->
  logs_the_close w (fst (proxy_websocket x s)).
Proof.
  intros H Hs. unfold proxy_websocket.
  destruct (import_websockets x); [intros _; now apply except_logs_the_close|].
  cbn. discriminate.
Qed.

Lemma gather_logs_the_close w x s :
  grows w x -> phase s = Relaying ->
  phase (snd (gather x s)) = Finished ReturnedWs ->
  logs_the_close w (fst (gather x s)).
Proof.
  intros H Hs. unfold gather.
  destruct (exited (c2s s) && exited (s2c s)); [intros _; now apply finally_logs_the_close|].
  cbn. rewrite Hs. discriminate.
Qed.

(** X9: the [finally] clause runs on every way out: whichever event makes
    a handler return its [ws] (a failed [Popen], a failed import, a refused
    connect, the end of the relay), the last line that step adds to the log
    is [WebSocket connection closed]. *)
Theorem every_return_logs_the_close (ev : SessionEvent) (w : World) (s : Session) :
  (forall r, phase s <> Finished r) ->
  phase (snd (session_step ev w s)) = Finished ReturnedWs ->
  exists l,
    log (fst (session_step ev w s)) =
    log w ++ l ++ [(L_INFO, "WebSocket connection closed")].
Proof.
  intros Hs. change (phase (snd (session_step ev w s)) = Finished ReturnedWs ->
                     logs_the_close w (fst (session_step ev w s))).
  unfold session_step.
  destruct (phase s) eqn:Hp; [| | | |destruct (Hs r eq_refl)].
  - destruct ev as [[e|]| |err|lev|lev]; cbn; rewrite ?Hp; try discriminate.
    pose proof (ensure_whisper_server_grows
                  (logger L_INFO "New WebSocket connection established" w)) as H.
    assert (H' : grows w (fst (ensure_whisper_server
                  (logger L_INFO "New WebSocket connection established" w)))).
    { eapply grows_trans; [apply grows_logger|exact H]. }
    destruct (ensure_whisper_server
                (logger L_INFO "New WebSocket connection established" w))
      as [w2 [|e|n]]; cbn in H'.
    + apply proxy_logs_the_close; [exact H'|].
      intros r. rewrite Hp. discriminate.
    + intros _. now apply except_logs_the_close.
    + cbn. discriminate.
  - destruct ev as [err| |err|lev|lev]; cbn; rewrite ?Hp; try discriminate.
    apply proxy_logs_the_close; [apply grows_logger|].
    intros r. rewrite Hp. discriminate.
  - destruct ev as [err| |[e|]|lev|lev]; cbn; rewrite ?Hp; try discriminate.
    intros _.
    apply (finally_logs_the_close w (logger L_ERROR ("Proxy error: " +:+ e) w) s),
          grows_logger.
  - destruct ev as [err| |err|lev|lev]; cbn; rewrite ?Hp; try discriminate.
    + destruct (c2s s); cbn; rewrite ?Hp; try discriminate.
      destruct (server_ws s) as [srv|]; cbn; rewrite ?Hp; try discriminate.
      pose proof (client_to_server_grows lev w (receive_client lev (ws s)) srv) as H.
      destruct (client_to_server lev w (receive_client lev (ws s)) srv) as [[w1 srv1] l].
      apply gather_logs_the_close; [exact H|reflexivity].
    + destruct (s2c s); cbn; rewrite ?Hp; try discriminate.
      destruct (server_ws s) as [srv|]; cbn; rewrite ?Hp; try discriminate.
      pose proof (server_to_client_grows lev w (ws s)) as H.
      destruct (server_to_client lev w (ws s)) as [[w1 cli] l].
      apply gather_logs_the_close; [exact H|reflexivity].
Qed.

Lemma every_return_logs_the_close_witness :
  let w := init 9090 "/usr/bin/python3" None 0%float in
  let s := mkSession Connecting fresh_conn None Idle Idle in
  let r := session_step (Connected (Some "Connect call failed")) w s in
  phase (snd r) = Finished ReturnedWs /\
  exists l, log (fst r) = log w ++ l ++ [(L_INFO, "WebSocket connection closed")].
Proof.
  split; [reflexivity|].
  apply (every_return_logs_the_close (Connected (Some "Connect call failed"))
           (init 9090 "/usr/bin/python3" None 0%float)
           (mkSession Connecting fresh_conn None Idle Idle)).
  - discriminate.
  - reflexivity.
Defined.

(** ** What the relay sends *)

Lemma gather_sent w s :
  sent_in (snd (gather w s)) = sent_in s /\ sent (ws (snd (gather w s))) = sent (ws s).
Proof.
  unfold gather. destruct (exited (c2s s) && exited (s2c s)); [|split; reflexivity].
  unfold sent_in. cbn. destruct (server_ws s); split; reflexivity.
Qed.

Lemma proxy_websocket_sent w s :
  sent_in (snd (proxy_websocket w s)) = sent_in s /\
  sent (ws (snd (proxy_websocket w s))) = sent (ws s).
Proof. unfold proxy_websocket. destruct (import_websockets w); split; reflexivity. Qed.

Lemma client_to_server_sent lev w cli srv :
  exists l,
    sent (snd (fst (client_to_server lev w cli srv))) = sent srv ++ l /\
    l `sublist_of`
      match lev with
      | Yield m _ => match type m with TEXT | BINARY => frame_of (data m) | _ => [] end
      | _ => []
      end.
Proof.
  assert (N : forall l' : list Frame, exists l, sent srv = sent srv ++ l /\ l `sublist_of` l').
  { intros l'. exists []. split; [symmetry; apply app_nil_r|apply sublist_nil_l]. }
  destruct lev as [[ty d] err| |e]; cbn; try apply N.
  destruct ty; cbn; try apply N;
    (destruct err as [e|]; cbn; [apply N|]);
    destruct d; cbn; try apply N; eexists; (split; [reflexivity|reflexivity]).
Qed.

Lemma server_to_client_sent lev w cli :
  exists l,
    sent (snd (fst (server_to_client lev w cli))) = sent cli ++ l /\
    l `sublist_of` match lev with Yield v _ => frame_of v | _ => [] end.
Proof.
  assert (N : forall l' : list Frame, exists l, sent cli = sent cli ++ l /\ l `sublist_of` l').
  { intros l'. exists []. split; [symmetry; apply app_nil_r|apply sublist_nil_l]. }
  destruct lev as [v err| |e]; cbn; try apply N.
  destruct v, err; cbn; try apply N; eexists; (split; [reflexivity|reflexivity]).
Qed.

Lemma receive_client_sent lev c : sent (receive_client lev c) = sent c.
Proof. destruct lev as [[[] []] ?| |?]; reflexivity. Qed.

Lemma receive_server_sent lev c : sent (receive_server lev c) = sent c.
Proof. destruct lev; reflexivity. Qed.

(** What one event adds to the frames a session has sent. *)
Lemma session_step_sent i ev w s :
  session_ok s ->
  let s' := snd (session_step ev w s) in
  exists l1 l2,
    sent_in s' = sent_in s ++ l1 /\ l1 `sublist_of` offered_in i (Resume i ev) /\
    sent (ws s') = sent (ws s) ++ l2 /\ l2 `sublist_of` offered_out i (Resume i ev).
Proof.
  intros Hok.
  assert (N : forall s' (L1 L2 : list Frame),
            sent_in s' = sent_in s -> sent (ws s') = sent (ws s) ->
            exists l1 l2,
              sent_in s' = sent_in s ++ l1 /\ l1 `sublist_of` L1 /\
              sent (ws s') = sent (ws s) ++ l2 /\ l2 `sublist_of` L2).
  { intros s' L1 L2 H1 H2. exists [], []. rewrite H1, H2, !app_nil_r.
    repeat split; apply sublist_nil_l. }
  unfold session_step, offered_in, offered_out. rewrite Nat.eqb_refl.
  destruct (phase s) eqn:Hp.
  - destruct ev as [[e|]| |err|lev|lev]; try (apply N; reflexivity).
    destruct (ensure_whisper_server
                (logger L_INFO "New WebSocket connection established" w))
      as [w2 [|e|n]]; try (apply N; reflexivity).
    apply N; apply proxy_websocket_sent.
  - destruct ev as [err| |err|lev|lev]; try (apply N; reflexivity).
    apply N; apply proxy_websocket_sent.
  - destruct ev as [err| |[e|]|lev|lev]; try (apply N; reflexivity).
    apply N; [|reflexivity].
    destruct Hok as [H|[H|H]].
    + destruct H as [H _]. congruence.
    + destruct H as [H _]. congruence.
    + destruct H as [H _]. unfold sent_in. rewrite H. reflexivity.
  - destruct ev as [err| |err|lev|lev]; try (apply N; reflexivity).
    + destruct (c2s s); try (apply N; reflexivity).
      destruct (server_ws s) as [srv|] eqn:Hsrv; [|apply N; reflexivity].
      destruct (client_to_server_sent lev w (receive_client lev (ws s)) srv)
        as (l & Hl & Hsub).
      destruct (client_to_server lev w (receive_client lev (ws s)) srv) as [[w1 srv1] lp].
      cbn in Hl.
      destruct (gather_sent w1 (mkSession Relaying (receive_client lev (ws s))
                                          (Some srv1) lp (s2c s))) as [G1 G2].
      exists l, []. rewrite G1, G2. unfold sent_in at 1 2. rewrite Hsrv. cbn.
      rewrite receive_client_sent, app_nil_r.
      repeat split; [exact Hl| |apply sublist_nil_l].
      destruct lev; exact Hsub.
    + destruct (s2c s); try (apply N; reflexivity).
      destruct (server_ws s) as [srv|] eqn:Hsrv; [|apply N; reflexivity].
      destruct (server_to_client_sent lev w (ws s)) as (l & Hl & Hsub).
      destruct (server_to_client lev w (ws s)) as [[w1 cli] lp].
      cbn in Hl.
      destruct (gather_sent w1 (mkSession Relaying cli (Some (receive_server lev srv))
                                          (c2s s) lp)) as [G1 G2].
      exists [], l. rewrite G1, G2. unfold sent_in at 1 2. rewrite Hsrv. cbn.
      rewrite receive_server_sent, app_nil_r.
      repeat split; [apply sublist_nil_l|exact Hl|].
      destruct lev; exact Hsub.
  - apply N; destruct ev; reflexivity.
Qed.

(** Where the session found at index [i] after an event comes from. *)
Lemma step_lookup_inv e sys i s :
  sessions (step e sys) !! i = Some s ->
  sessions sys !! i = Some s \/
  (exists ev s0, e = Resume i ev /\ sessions sys !! i = Some s0 /\
                 s = snd (session_step ev (world sys) s0)) \/
  (sessions sys !! i = None /\ s = new_session).
Proof.
  destruct e as [req|j sev|h rc|err|t]; cbn; auto.
  - unfold serve. destruct (resolve req) as [[]|]; cbn; auto.
    unfold websocket_handler. destruct (is_upgrade req); cbn; auto.
    intros H. apply lookup_app_Some in H as [H|[Hlen H]]; [auto|].
    right. right. split; [apply lookup_ge_None_2, Hlen|].
    destruct (i - length (sessions sys)); cbn in H; [now injection H|discriminate].
  - destruct (sessions sys !! j) as [s0|] eqn:Hj; [|auto].
    destruct (session_step sev (world sys) s0) as [w1 s1] eqn:Hst. cbn.
    destruct (Nat.eq_dec j i) as [->|Hne].
    + rewrite list_lookup_insert_eq by (eapply lookup_lt_Some, Hj).
      intros [= <-]. right. left. exists sev, s0. rewrite Hst. auto.
    + rewrite list_lookup_insert_ne by exact Hne. auto.
Qed.

Lemma run_snoc evs e sys : run (evs ++ [e]) sys = step e (run evs sys).
Proof. unfold run. rewrite fold_left_app. reflexivity. Qed.

(** X10: the relay makes nothing up: in every run of the service, the
    frames a session has sent on its internal connection are, in their
    order and without repetition, payloads of [TEXT] and [BINARY] messages
    its external peer delivered, and the frames it has sent on its external
    connection are messages its backend delivered.  Nothing crosses from
    one session to another. *)
Theorem relay_only_forwards_what_arrived
  (p : Z) (exe : string) (imp : option Exception) (t : float)
  (evs : list Event) (i : nat) (s : Session) :
  sessions (run evs (boot p exe imp t)) !! i = Some s ->
  sent_in s `sublist_of` concat (map (offered_in i) evs) /\
  sent (ws s) `sublist_of` concat (map (offered_out i) evs).
Proof.
  revert s. induction evs as [|e evs IH] using rev_ind; intros s Hs; [discriminate|].
  rewrite run_snoc in Hs. rewrite !map_app, !concat_app. cbn [map concat].
  rewrite !app_nil_r.
  apply step_lookup_inv in Hs as [Hs|[(ev & s0 & -> & Hs0 & ->)|[_ ->]]].
  - destruct (IH _ Hs) as [H1 H2]. split; apply sublist_inserts_r; assumption.
  - destruct (IH _ Hs0) as [H1 H2].
    assert (Hok : session_ok s0).
    { pose proof (run_sessions_ok evs (boot p exe imp t) (Forall_nil_2 _)) as H.
      rewrite Forall_lookup in H. exact (H _ _ Hs0). }
    destruct (session_step_sent i ev (world (run evs (boot p exe imp t))) s0 Hok)
      as (l1 & l2 & E1 & S1 & E2 & S2).
    rewrite E1, E2. split; apply sublist_app; assumption.
  - split; apply sublist_nil_l.
Qed.

Lemma relay_only_forwards_what_arrived_witness :
  let evs :=
    Arrive upgrade_request ::
    map (Resume 0)
        (open_relay ++
         [ FromClient (Yield (mkMsg TEXT (VStr "a")) None);
           FromClient (Yield (mkMsg PING (VBytes [])) None);
           FromClient (Yield (mkMsg BINARY (VBytes [Byte.x01])) (Some "closed"));
           FromClient (Yield (mkMsg TEXT (VStr "b")) None);
           FromServer (Yield (VStr "x") None) ]) in
  let s := mkSession Relaying (push (TextFrame "x") fresh_conn)
                     (Some (push (TextFrame "a") fresh_conn))
                     (Exited (Failed "closed")) Running in
  sessions (run evs (boot 9090 "/usr/bin/python3" None 0%float)) !! 0 = Some s /\
  sent_in s `sublist_of` concat (map (offered_in 0) evs) /\
  sent (ws s) `sublist_of` concat (map (offered_out 0) evs).
Proof.
  split; [reflexivity|].
  apply (relay_only_forwards_what_arrived 9090 "/usr/bin/python3" None 0%float
           (Arrive upgrade_request ::
            map (Resume 0)
                (open_relay ++
                 [ FromClient (Yield (mkMsg TEXT (VStr "a")) None);
                   FromClient (Yield (mkMsg PING (VBytes [])) None);
                   FromClient (Yield (mkMsg BINARY (VBytes [Byte.x01])) (Some "closed"));
                   FromClient (Yield (mkMsg TEXT (VStr "b")) None);
                   FromServer (Yield (VStr "x") None) ]))
           0).
  reflexivity.
Defined.

(** X11: when both peers close, the session ends, in whichever order the
    two closes come and whatever the rest of the service did in between:
    both loops are over, the internal connection has been closed by the
    wrapper and the handler has returned. *)
Theorem both_peers_closing_ends_the_session (w1 w2 : World) (s : Session) :
  relaying s ->
  relayed (snd (session_step (FromServer Stop) w2
                  (snd (session_step (FromClient Stop) w1 s)))) /\
  relayed (snd (session_step (FromClient Stop) w2
                  (snd (session_step (FromServer Stop) w1 s)))).
Proof.
  intros (Hp & H1 & H2 & Hex & Hc & srv & Hsrv & Hsc).
  destruct s as [ph cli osrv l1 l2]. cbn in *. subst ph osrv.
  destruct l1 as [| |x1]; [contradiction| |];
    (destruct l2 as [| |x2]; [contradiction| |]);
    try discriminate;
    unfold session_step, gather, relayed; cbn;
    (split; repeat split; cbn; eauto).
Qed.

Lemma both_peers_closing_ends_the_session_witness :
  let w := init 9090 "/usr/bin/python3" None 0%float in
  let s := mkSession Relaying fresh_conn (Some fresh_conn) Running Running in
  relaying s /\
  relayed (snd (session_step (FromServer Stop) w
                  (snd (session_step (FromClient Stop) w s)))) /\
  relayed (snd (session_step (FromClient Stop) w
                  (snd (session_step (FromServer Stop) w s)))).
Proof.
  assert (H : relaying (mkSession Relaying fresh_conn (Some fresh_conn) Running Running)).
  { repeat split; cbn; try discriminate; eauto. }
  split; [exact H|].
  apply (both_peers_closing_ends_the_session
           (init 9090 "/usr/bin/python3" None 0%float)
           (init 9090 "/usr/bin/python3" None 0%float)
           (mkSession Relaying fresh_conn (Some fresh_conn) Running Running) H).
Defined.

(** ** Exceptions and the handler *)

Lemma session_step_ws_kept w s lev :
  phase s = Relaying ->
  close_called (ws (snd (session_step (FromClient lev) w s))) = close_called (ws s) /\
  forall lev',
    close_called (ws (snd (session_step (FromServer lev') w s))) = close_called (ws s).
Proof.
  intros Hp. unfold session_step. rewrite Hp. split.
  - destruct (c2s s); try reflexivity.
    destruct (server_ws s) as [srv|]; [|reflexivity].
    destruct (client_to_server lev w (receive_client lev (ws s)) srv) as [[w1 srv1] l].
    rewrite gather_ws. cbn. apply receive_client_close_called.
  - intros lev'. destruct (s2c s); try reflexivity.
    destruct (server_ws s) as [srv|]; [|reflexivity].
    pose proof (server_to_client_conn lev' w (ws s)) as [Ha _].
    destruct (server_to_client lev' w (ws s)) as [[w1 cli] l].
    rewrite gather_ws. exact Ha.
Qed.

(** X18: the handler closes the external connection itself exactly when
    [ensure_whisper_server] or the import at the head of [proxy_websocket]
    raises: it then logs the error, closes and returns [ws]; on no other
    event does a step of the handler call [ws.close()], and in particular
    not when the connect to the backend fails or a relay loop ends with an
    exception.  An exception leaves the handler from [ws.prepare] only. *)
Theorem handler_closes_exactly_when_setup_raises
  (ev : SessionEvent) (w : World) (s : Session) :
  let r := session_step ev w s in
  (forall e, setup_raises e (phase s) ev w ->
     phase (snd r) = Finished ReturnedWs /\
     close_called (ws (snd r)) = true /\
     caught_by_handler e w (fst r)) /\
  (close_called (ws s) = false -> close_called (ws (snd r)) = true ->
     exists e, setup_raises e (phase s) ev w) /\
  (forall e, phase (snd r) = Finished (Escaped e) ->
     phase s = Finished (Escaped e) \/ (phase s = Preparing /\ ev = Prepared (Some e))).
Proof.
  cbv zeta. split; [|split].
  - intros e [(Hp & -> & H)|(Hp & -> & Hi)]; unfold session_step; rewrite Hp.
    + unfold ensure_whisper_server, subprocess_Popen, proxy_websocket. cbn.
      change (not_running (logger L_INFO "New WebSocket connection established" w))
        with (not_running w).
      destruct H as [[Hn Hf]|[Hn Hi]]; rewrite Hn; cbn; rewrite ?Hf, ?Hi; cbn.
      * repeat split.
        exists [(L_INFO, "New WebSocket connection established");
                (L_INFO, "Starting WhisperLive backend server...")].
        cbn. rewrite <- !app_assoc. reflexivity.
      * repeat split.
        exists [(L_INFO, "New WebSocket connection established")].
        cbn. rewrite <- !app_assoc. reflexivity.
    + unfold proxy_websocket. cbn. rewrite Hi. cbn. repeat split.
      exists [(L_INFO, "WhisperLive backend server started")].
      cbn. rewrite <- !app_assoc. reflexivity.
  - intros H0 H1. unfold setup_raises. unfold session_step in H1.
    destruct (phase s) eqn:Hp.
    + destruct ev as [[e|]| |err|lev|lev]; cbn in H1; try congruence.
      unfold ensure_whisper_server, subprocess_Popen, proxy_websocket in H1. cbn in H1.
      change (not_running (logger L_INFO "New WebSocket connection established" w))
        with (not_running w) in H1.
      destruct (not_running w) eqn:Hn; cbn in H1.
      * destruct (fork_error w) as [e|] eqn:Hf; cbn in H1; [|congruence].
        exists e. left. auto.
      * destruct (import_websockets w) as [e|] eqn:Hi; cbn in H1; [|congruence].
        exists e. left. auto.
    + destruct ev as [err| |err|lev|lev]; cbn in H1; try congruence.
      unfold proxy_websocket in H1. cbn in H1.
      destruct (import_websockets w) as [e|] eqn:Hi; cbn in H1; [|congruence].
      exists e. right. auto.
    + destruct ev as [err| |[e|]|lev|lev]; cbn in H1; congruence.
    + exfalso. pose proof (session_step_ws_kept w s) as K.
      unfold session_step in K. rewrite Hp in K.
      destruct ev as [err| |err|lev|lev]; cbn in H1; try congruence.
      * destruct (K lev eq_refl) as [K1 _]. congruence.
      * destruct (K (Throw "") eq_refl) as [_ K2]. specialize (K2 lev). congruence.
    + destruct ev; cbn in H1; congruence.
  - intros e He. unfold session_step in He.
    destruct (phase s) eqn:Hp.
    + destruct ev as [[e'|]| |err|lev|lev]; cbn in He; rewrite ?Hp in He; try discriminate.
      * injection He as ->. right. auto.
      * exfalso. revert He.
        unfold ensure_whisper_server, subprocess_Popen, proxy_websocket. cbn.
        destruct (not_running _); cbn;
          [destruct (fork_error w)|destruct (import_websockets w)]; discriminate.
    + exfalso. destruct ev as [err| |err|lev|lev]; cbn in He; rewrite ?Hp in He;
        try discriminate.
      revert He. unfold proxy_websocket. cbn.
      destruct (import_websockets w); discriminate.
    + exfalso. destruct ev as [err| |[e'|]|lev|lev]; cbn in He; rewrite ?Hp in He;
        discriminate.
    + exfalso. destruct ev as [err| |err|lev|lev]; cbn in He; rewrite ?Hp in He;
        try discriminate.
      * destruct (c2s s); cbn in He; rewrite ?Hp in He; try discriminate.
        destruct (server_ws s) as [srv|]; cbn in He; rewrite ?Hp in He; try discriminate.
        destruct (client_to_server lev w (receive_client lev (ws s)) srv) as [[w1 srv1] l].
        unfold gather in He. cbn in He.
        destruct (exited l && exited (s2c s)); discriminate.
      * destruct (s2c s); cbn in He; rewrite ?Hp in He; try discriminate.
        destruct (server_ws s) as [srv|]; cbn in He; rewrite ?Hp in He; try discriminate.
        destruct (server_to_client lev w (ws s)) as [[w1 cli] l].
        unfold gather in He. cbn in He.
        destruct (exited (c2s s) && exited l); discriminate.
    + left. destruct ev; cbn in He; rewrite Hp in He; exact He.
Qed.

End WrapperExtras.

(** * Properties of the transcription endpoint *)

Module TranscribeProofs.
Import Py Http WhisperApi.

Example allowed_file_examples :
  allowed_file "talk.WAV" = true /\ allowed_file "a.b.mp3" = true /\
  allowed_file "notes.txt" = false /\ allowed_file "wav" = false /\
  allowed_file "clip." = false.
Proof. repeat split. Qed.

(** [strip] at both ends: ASCII white space, U+001F, NO-BREAK SPACE
    (bytes 194 160) and EM SPACE (bytes 226 128 131) go; white space inside
    stays, and so does a code point that only shares bytes with one. *)
Example strip_examples :
  strip "  Hello there. " = "Hello there." /\
  strip (String "031" (String "194" (String "160" "ok")) +:+
         String "226" (String "128" (String "131" (String "010" "")))) = "ok" /\
  strip (String "226" (String "128" (String "148" "x"))) =
    String "226" (String "128" (String "148" "x")) /\
  strip " " = "" /\
  len (String "226" (String "132" (String "170" "ET"))) = 3.
Proof. repeat split. Qed.

Example transcribe_audio_ok :
  let req := mkFlaskRequest [("audio", mkFile "clip.ogg" [Byte.x4f])] [("temperature", "0")] in
  let r := transcribe_audio float_of_digits silent_model req fresh_app in
  status (snd r) = 200%Z /\
  keys (body (snd r)) = ["text"; "language"; "segments"; "model"] /\
  tempfiles (fst r) = [].
Proof. repeat split. Qed.

(** C10, as the code has it: a POST that carries an [audio] file with a
    non-empty name and an allowed extension, and a [temperature] field that
    [float()] rejects, is answered 500 with the body
    [{'error': 'Transcription failed: ...'}]: the conversion is inside the
    [try] whose [except Exception] builds that answer.  Nothing is written
    to disk. *)
Theorem bad_temperature_is_500_after_file_checks
  (py_float : string -> float + Exception)
  (model_transcribe : list Byte.byte -> TranscribeArgs -> WhisperResult + Exception)
  (req : FlaskRequest) (a : App) (file : FileStorage) (s : string) (e : Exception) :
  lookup "audio" (files req) = Some file ->
  filename file <> "" ->
  allowed_file (filename file) = true ->
  lookup "temperature" (form req) = Some s ->
  py_float s = inr e ->
  transcribe_audio py_float model_transcribe req a =
    (logger L_ERROR ("Transcription error: " +:+ e) a,
     jsonify 500 (error_body ("Transcription failed: " +:+ e))) /\
  status (snd (transcribe_audio py_float model_transcribe req a)) = 500%Z /\
  tempfiles (fst (transcribe_audio py_float model_transcribe req a)) = tempfiles a.
Proof.
  intros Hfile Hname Hext Htemp Hfloat.
  assert (H : transcribe_audio py_float model_transcribe req a =
              (logger L_ERROR ("Transcription error: " +:+ e) a,
               jsonify 500 (error_body ("Transcription failed: " +:+ e)))).
  { unfold transcribe_audio, temperature_of. rewrite Hfile, Hext, Htemp, Hfloat.
    destruct (String.eqb_spec (filename file) ""); [contradiction|reflexivity]. }
  rewrite H. repeat split.
Qed.

Lemma bad_temperature_is_500_after_file_checks_witness :
  let file := mkFile "clip.WAV" [Byte.x52; Byte.x49] in
  let req := mkFlaskRequest [("audio", file)] [("language", "fr"); ("temperature", "hot")] in
  let r := transcribe_audio float_of_digits silent_model req fresh_app in
  float_of_digits "hot" = inr "could not convert string to float: 'hot'" /\
  allowed_file (filename file) = true /\
  r = (logger L_ERROR "Transcription error: could not convert string to float: 'hot'" fresh_app,
       jsonify 500 (error_body
         "Transcription failed: could not convert string to float: 'hot'")) /\
  status (snd r) = 500%Z /\
  tempfiles (fst r) = tempfiles fresh_app.
Proof.
  split; [reflexivity|]. split; [reflexivity|].
  apply (bad_temperature_is_500_after_file_checks float_of_digits silent_model
           (mkFlaskRequest [("audio", mkFile "clip.WAV" [Byte.x52; Byte.x49])]
                           [("language", "fr"); ("temperature", "hot")])
           fresh_app (mkFile "clip.WAV" [Byte.x52; Byte.x49]) "hot"
           "could not convert string to float: 'hot'");
    try reflexivity.
  discriminate.
Defined.

(** C10, as stated, fails: the file checks come before the conversion, so
    a POST with an unparseable [temperature] and no [audio] file (or a file
    of another format) is answered 400, whatever [float()] and the model
    are. *)
Lemma bad_temperature_without_audio_is_400 :
  let req1 := mkFlaskRequest [] [("temperature", "abc")] in
  let req2 := mkFlaskRequest [("audio", mkFile "notes.txt" [])] [("temperature", "abc")] in
  lookup "temperature" (form req1) = Some "abc" /\
  lookup "temperature" (form req2) = Some "abc" /\
  float_of_digits "abc" = inr "could not convert string to float: 'abc'" /\
  snd (transcribe_audio float_of_digits silent_model req1 fresh_app) =
    jsonify 400 (error_body "No audio file provided") /\
  snd (transcribe_audio float_of_digits silent_model req2 fresh_app) =
    jsonify 400 (error_body "Unsupported file format").
Proof. repeat split. Qed.

End TranscribeProofs.

(** * Further properties of the transcription endpoint *)

Module TranscribeExtras.
Import Py Http WhisperApi.

(** ** File names *)

Lemma after_last_dot_none s : has_dot s = false -> after_last_dot s = None.
Proof.
  induction s as [|c s IH]; [reflexivity|].
  cbn. intros H. apply orb_false_iff in H as [Hc Hs].
  now rewrite (IH Hs), Hc.
Qed.

Lemma append_nil s : "" +:+ s = s.
Proof. reflexivity. Qed.

Lemma append_cons c s t : String c s +:+ t = String c (s +:+ t).
Proof. reflexivity. Qed.

Lemma after_last_dot_app stem ext :
  has_dot ext = false -> after_last_dot (stem +:+ "." +:+ ext) = Some ext.
Proof.
  intros H. induction stem as [|c stem IH].
  - rewrite append_nil, append_cons, append_nil. cbn.
    now rewrite (after_last_dot_none _ H).
  - rewrite append_cons. cbn [after_last_dot]. now rewrite IH.
Qed.

Lemma has_dot_app stem ext : has_dot (stem +:+ "." +:+ ext) = true.
Proof.
  induction stem as [|c stem IH].
  - rewrite append_nil, append_cons. reflexivity.
  - rewrite append_cons. cbn [has_dot]. rewrite IH. apply orb_true_r.
Qed.

Lemma has_dot_split name :
  has_dot name = true ->
  exists stem ext, name = stem +:+ "." +:+ ext /\ has_dot ext = false.
Proof.
  induction name as [|c name IH]; [discriminate|].
  cbn. destruct (has_dot name) eqn:Hn.
  - intros _. destruct (IH eq_refl) as (stem & ext & -> & Hext).
    exists (String c stem), ext. split; [reflexivity|exact Hext].
  - rewrite orb_false_r. intros Hc. apply Ascii.eqb_eq in Hc as ->.
    exists "", name. split; [reflexivity|exact Hn].
Qed.

Lemma allowed_file_app stem ext :
  has_dot ext = false -> In (lower ext) ALLOWED_EXTENSIONS ->
  allowed_file (stem +:+ "." +:+ ext) = true.
Proof.
  intros Hext Hin. unfold allowed_file.
  rewrite has_dot_app, (after_last_dot_app stem ext Hext). cbn [andb].
  rewrite existsb_exists. exists (lower ext). split; [exact Hin|apply String.eqb_refl].
Qed.

Lemma existsb_eqb_In x l : existsb (String.eqb x) l = true <-> In x l.
Proof.
  rewrite existsb_exists. split.
  - intros (y & Hy & E). apply String.eqb_eq in E as ->. exact Hy.
  - intros H. exists x. split; [exact H|apply String.eqb_refl].
Qed.

(** X13: [allowed_file] looks at what follows the last dot and at nothing
    else: a name is accepted exactly when it is [stem.ext] with no dot in
    [ext] and [ext], letter case apart, one of the eight extensions.  So a
    name without a dot or ending in a dot is refused, and the stem, other
    dots in it included, does not matter. *)
Theorem allowed_file_is_decided_by_the_last_extension (name : string) :
  allowed_file name = true <->
  exists stem ext,
    name = stem +:+ "." +:+ ext /\ has_dot ext = false /\
    In (lower ext) ALLOWED_EXTENSIONS.
Proof.
  unfold allowed_file. split.
  - intros H. apply andb_true_iff in H as [Hd H].
    destruct (has_dot_split name Hd) as (stem & ext & -> & Hext).
    rewrite (after_last_dot_app stem ext Hext) in H.
    exists stem, ext. repeat split; [exact Hext|]. now apply existsb_eqb_In.
  - intros (stem & ext & -> & Hext & Hin). now apply allowed_file_app.
Qed.

Lemma has_dot_lower_le n : forall s,
  String.length s <= n -> has_dot (lower s) = has_dot s.
Proof.
  assert (A : forall c, Ascii.eqb (lower_ascii c) "." = Ascii.eqb c ".").
  { intros c. destruct c as [[] [] [] [] [] [] [] []]; reflexivity. }
  induction n as [|n IH]; intros s Hs.
  - destruct s; [reflexivity|cbn in Hs; lia].
  - destruct s as [|c [|d [|e r]]]; [reflexivity|..].
    + cbn. now rewrite A.
    + cbn [lower has_dot]. rewrite A. f_equal.
      apply (IH (String d EmptyString)). cbn in *. lia.
    + change (lower (String c (String d (String e r)))) with
        (if Ascii.eqb c "226" && Ascii.eqb d "132" && Ascii.eqb e "170"
         then String "k" (lower r)
         else String (lower_ascii c) (lower (String d (String e r)))).
      destruct (Ascii.eqb c "226" && Ascii.eqb d "132" && Ascii.eqb e "170") eqn:K.
      * apply andb_true_iff in K as [K Ke]. apply andb_true_iff in K as [Kc Kd].
        apply Ascii.eqb_eq in Kc, Kd, Ke. subst c d e.
        cbn [has_dot]. cbn [Ascii.eqb Bool.eqb orb andb].
        apply IH. cbn in Hs. lia.
      * cbn [has_dot]. rewrite A. f_equal.
        apply (IH (String d (String e r))). cbn in *. lia.
Qed.

Lemma has_dot_lower s : has_dot (lower s) = has_dot s.
Proof. apply (has_dot_lower_le (String.length s)). lia. Qed.

(** X14: the formats that [index] advertises are formats that
    [/transcribe] accepts: for every entry of [supported_formats], a file
    whose name ends in a dot and that extension, written in any mix of
    upper and lower case and after any stem, passes [allowed_file]. *)
Theorem advertised_formats_are_accepted (a : App) (ext stem written : string) :
  (exists items,
     field "supported_formats" (body (index a)) = Some (JArr items) /\
     In (JStr ext) items) ->
  lower written = ext ->
  allowed_file (stem +:+ "." +:+ written) = true.
Proof.
  intros (items & Hf & Hin) Hl. cbn in Hf. injection Hf as <-.
  apply allowed_file_app.
  - rewrite <- has_dot_lower, Hl.
    cbn in Hin. repeat destruct Hin as [[= <-]|Hin]; try contradiction; reflexivity.
  - rewrite Hl. cbn in Hin.
    repeat destruct Hin as [[= <-]|Hin]; try contradiction; cbn; auto 10.
Qed.

Lemma advertised_formats_are_accepted_witness :
  (exists items,
     field "supported_formats" (body (index fresh_app)) = Some (JArr items) /\
     In (JStr "flac") items) /\
  lower "FLaC" = "flac" /\
  allowed_file ("take.2" +:+ "." +:+ "FLaC") = true.
Proof.
  assert (H : exists items,
            field "supported_formats" (body (index fresh_app)) = Some (JArr items) /\
            In (JStr "flac") items).
  { eexists. split; [reflexivity|]. cbn. auto 10. }
  split; [exact H|]. split; [reflexivity|].
  apply (advertised_formats_are_accepted fresh_app "flac" "take.2" "FLaC" H).
  reflexivity.
Defined.

(** ** The answers of /transcribe *)

(** X15: the status of the answer is decided as follows.  It is 400
    exactly when one of the three file checks fails, and then nothing at
    all has happened (no log line, no file on disk).  It is 200 exactly
    when the checks pass, [float()] accepts the temperature (0.0 when the
    field is absent), the temporary file is written and the model, called
    with the language of the form (['en'] when absent), that temperature,
    [no_speech_threshold=0.8] and [fp16=False], returns a result.  It is
    500 otherwise; there is no other status. *)
Theorem transcribe_audio_status_is_decided
  (py_float : string -> float + Exception)
  (model_transcribe : list Byte.byte -> TranscribeArgs -> WhisperResult + Exception)
  (req : FlaskRequest) (a : App) :
  let r := transcribe_audio py_float model_transcribe req a in
  (status (snd r) = 200%Z \/ status (snd r) = 400%Z \/ status (snd r) = 500%Z) /\
  (status (snd r) = 400%Z <-> file_checks_pass req = false) /\
  (status (snd r) = 400%Z -> fst r = a) /\
  (status (snd r) = 200%Z <->
   exists file temperature result,
     lookup "audio" (files req) = Some file /\
     file_checks_pass req = true /\
     temperature_of py_float req = inl temperature /\
     disk_error a = None /\
     model_transcribe (content file)
       (mkArgs match lookup "language" (form req) with Some l => l | None => "en" end
               temperature 0x1.999999999999ap-1%float false) = inl result).
Proof.
  unfold transcribe_audio, file_checks_pass, transcription_failed, save_temp.
  destruct (lookup "audio" (files req)) as [file|]; cbn.
  2: { repeat split; auto; try discriminate. intros (f & _ & _ & H & _). discriminate. }
  destruct (String.eqb (filename file) ""); cbn.
  1: { repeat split; auto; try discriminate. intros (f & _ & _ & _ & H & _). discriminate. }
  destruct (allowed_file (filename file)); cbn.
  2: { repeat split; auto; try discriminate. intros (f & _ & _ & _ & H & _). discriminate. }
  destruct (temperature_of py_float req) as [temperature|e]; cbn.
  2: { repeat split; auto; try discriminate. intros (f & x & _ & _ & _ & H & _). discriminate. }
  destruct (disk_error a) as [[e|e partial]|]; cbn.
  1, 2: repeat split; auto; try discriminate;
    intros (f & x & _ & _ & _ & _ & H & _); discriminate.
  destruct (model_transcribe (content file) _) as [result|e] eqn:Hm; cbn.
  - repeat split; auto; try discriminate.
    intros _. exists file, temperature, result. auto.
  - repeat split; auto; try discriminate.
    intros (f & x & y & [= <-] & _ & [= <-] & _ & H). rewrite Hm in H. discriminate.
Qed.

(** X16: every 500 answer is logged: the body is
    [{'error': 'Transcription failed: ' + str(e)}] for the exception [e]
    that was caught, and the last line of the log is the error line
    [Transcription error: ] with the same [str(e)]. *)
Theorem every_500_is_logged
  (py_float : string -> float + Exception)
  (model_transcribe : list Byte.byte -> TranscribeArgs -> WhisperResult + Exception)
  (req : FlaskRequest) (a : App) :
  let r := transcribe_audio py_float model_transcribe req a in
  status (snd r) = 500%Z ->
  exists e l,
    snd r = jsonify 500 (error_body ("Transcription failed: " +:+ e)) /\
    log (fst r) = l ++ [(L_ERROR, "Transcription error: " +:+ e)].
Proof.
  unfold transcribe_audio, transcription_failed, save_temp.
  destruct (lookup "audio" (files req)) as [file|]; cbn; [|discriminate].
  destruct (String.eqb (filename file) ""); cbn; [discriminate|].
  destruct (allowed_file (filename file)); cbn; [|discriminate].
  destruct (temperature_of py_float req) as [temperature|e]; cbn; [|eauto].
  destruct (disk_error a) as [[e|e partial]|]; cbn; [eauto..|].
  destruct (model_transcribe (content file) _) as [result|e]; cbn; [discriminate|eauto].
Qed.

Lemma every_500_is_logged_witness :
  let req := mkFlaskRequest [("audio", mkFile "a.mp3" [])] [("temperature", "1e")] in
  let r := transcribe_audio float_of_digits silent_model req fresh_app in
  status (snd r) = 500%Z /\
  exists e l,
    snd r = jsonify 500 (error_body ("Transcription failed: " +:+ e)) /\
    log (fst r) = l ++ [(L_ERROR, "Transcription error: " +:+ e)].
Proof.
  split; [reflexivity|].
  apply (every_500_is_logged float_of_digits silent_model
           (mkFlaskRequest [("audio", mkFile "a.mp3" [])] [("temperature", "1e")])
           fresh_app).
  reflexivity.
Defined.

Lemma unlink_fresh n c l :
  Forall (fun f : nat * list Byte.byte => fst f < n) l ->
  List.filter (fun f => negb (Nat.eqb (fst f) n)) (l ++ [(n, c)]) = l.
Proof.
  intros H. rewrite List.filter_app. cbn. rewrite Nat.eqb_refl. cbn.
  rewrite app_nil_r. induction H as [|f l Hf _ IH]; [reflexivity|].
  cbn. rewrite IH.
  destruct (Nat.eqb_spec (fst f) n) as [E|_]; [lia|reflexivity].
Qed.

(** X17: no temporary file outlives a request: when the temporary file can
    be written, the files on disk after the request are the files of
    before, whether the request was refused, the model returned a result
    or the model raised; and the names stay fresh, so the same holds for
    the requests that follow. *)
Theorem no_temporary_file_is_left
  (py_float : string -> float + Exception)
  (model_transcribe : list Byte.byte -> TranscribeArgs -> WhisperResult + Exception)
  (req : FlaskRequest) (a : App) :
  names_fresh a ->
  disk_error a = None ->
  let a' := fst (transcribe_audio py_float model_transcribe req a) in
  tempfiles a' = tempfiles a /\ names_fresh a' /\ disk_error a' = None.
Proof.
  intros Hfresh Hdisk.
  unfold transcribe_audio, transcription_failed, save_temp. rewrite Hdisk.
  destruct (lookup "audio" (files req)) as [file|]; cbn; [|auto].
  destruct (String.eqb (filename file) ""); cbn; [auto|].
  destruct (allowed_file (filename file)); cbn; [|auto].
  destruct (temperature_of py_float req) as [temperature|e]; cbn; [|auto].
  assert (F : names_fresh (mkApp (MODEL_SIZE a) (tempfiles a) (S (next_temp a)) None (log a))).
  { unfold names_fresh in *. cbn. eapply Forall_impl; [exact Hfresh|]. cbn. lia. }
  destruct (model_transcribe (content file) _) as [result|e]; cbn;
    unfold names_fresh; cbn; rewrite (unlink_fresh _ _ _ Hfresh); auto.
Qed.

Lemma no_temporary_file_is_left_witness :
  let a := mkApp "medium" [(0, [Byte.x00]); (3, [])] 4 None [] in
  let req := mkFlaskRequest [("audio", mkFile "a.mp3" [Byte.x49])] [] in
  let a' := fst (transcribe_audio float_of_digits silent_model req a) in
  names_fresh a /\ disk_error a = None /\
  tempfiles a' = tempfiles a /\ names_fresh a' /\ disk_error a' = None.
Proof.
  assert (H : names_fresh (mkApp "medium" [(0, [Byte.x00]); (3, [])] 4 None [])).
  { unfold names_fresh. cbn. repeat constructor; cbn; lia. }
  split; [exact H|]. split; [reflexivity|].
  apply (no_temporary_file_is_left float_of_digits silent_model
           (mkFlaskRequest [("audio", mkFile "a.mp3" [Byte.x49])] [])
           (mkApp "medium" [(0, [Byte.x00]); (3, [])] 4 None []) H).
  reflexivity.
Defined.

(** X19: a temporary file is left behind when [file.save] fails.  The
    [with] block of lines 59 to 61 stands before the inner [try], whose
    [finally] is the only place that unlinks: when the checks pass,
    [float()] accepts the temperature and [file.save] raises after
    [NamedTemporaryFile(delete=False)] has created the file, the request is
    answered 500, the error is logged, the model is not called, and the
    file stays on disk with what was written to it.  When
    [NamedTemporaryFile] itself raises, the answer and the log line are
    the same and the disk is as before. *)
Theorem failed_save_leaves_the_temporary_file
  (py_float : string -> float + Exception)
  (model_transcribe : list Byte.byte -> TranscribeArgs -> WhisperResult + Exception)
  (req : FlaskRequest) (a : App) (temperature : float) (e : Exception) :
  file_checks_pass req = true ->
  temperature_of py_float req = inl temperature ->
  let r := transcribe_audio py_float model_transcribe req a in
  (forall partial, disk_error a = Some (CannotSave e partial) ->
     snd r = jsonify 500 (error_body ("Transcription failed: " +:+ e)) /\
     tempfiles (fst r) = tempfiles a ++ [(next_temp a, partial)] /\
     next_temp (fst r) = S (next_temp a) /\
     log (fst r) = log a ++ [(L_ERROR, "Transcription error: " +:+ e)]) /\
  (disk_error a = Some (CannotCreate e) ->
     snd r = jsonify 500 (error_body ("Transcription failed: " +:+ e)) /\
     tempfiles (fst r) = tempfiles a /\
     next_temp (fst r) = next_temp a /\
     log (fst r) = log a ++ [(L_ERROR, "Transcription error: " +:+ e)]).
Proof.
  intros Hc Ht. cbv zeta.
  unfold transcribe_audio, file_checks_pass, transcription_failed, save_temp in *.
  destruct (lookup "audio" (files req)) as [file|]; [|discriminate].
  apply andb_true_iff in Hc as [Hn Ha]. apply negb_true_iff in Hn.
  rewrite Hn, Ha, Ht. cbn.
  split; [intros partial Hd|intros Hd]; rewrite Hd; cbn; repeat split.
Qed.

Lemma failed_save_leaves_the_temporary_file_witness :
  let req := mkFlaskRequest [("audio", mkFile "a.mp3" [Byte.x49; Byte.x44; Byte.x33])] [] in
  let a := mkApp "medium" [] 7 (Some (CannotSave "[Errno 28] No space left on device"
                                                 [Byte.x49])) [] in
  let r := transcribe_audio float_of_digits silent_model req a in
  file_checks_pass req = true /\
  temperature_of float_of_digits req = inl 0%float /\
  snd r = jsonify 500 (error_body
            ("Transcription failed: " +:+ "[Errno 28] No space left on device")) /\
  tempfiles (fst r) = tempfiles a ++ [(next_temp a, [Byte.x49])] /\
  next_temp (fst r) = S (next_temp a) /\
  log (fst r) =
    log a ++ [(L_ERROR, "Transcription error: " +:+ "[Errno 28] No space left on device")].
Proof.
  split; [reflexivity|]. split; [reflexivity|].
  apply (failed_save_leaves_the_temporary_file float_of_digits silent_model
           (mkFlaskRequest [("audio", mkFile "a.mp3" [Byte.x49; Byte.x44; Byte.x33])] [])
           (mkApp "medium" [] 7 (Some (CannotSave "[Errno 28] No space left on device"
                                                  [Byte.x49])) [])
           0%float "[Errno 28] No space left on device");
    reflexivity.
Defined.

End TranscribeExtras.
